(** * Weenix process lifecycle: a shallow embedding of kernel/proc/proc.c

    The development follows the C source function by function.  Kernel
    objects live in address-indexed finite maps, a pointer is an address
    ([NULL] is address 0), and every access through an address that holds
    no object of the expected type is a fault.  Intrusive lists are lists
    of addresses in list order.  Blocking calls stop at the call to
    [sched_sleep_on] and are resumed by an explicit wake-up. *)

From stdpp Require Import base option list strings gmap.
From Stdlib Require Import ZArith Lia.

Local Open Scope Z_scope.

(** ** Faults and the error monad *)

Inductive fault : Type :=
| BadAccess (a : Z)   (* load or store through an address holding no object *)
| AssertFailed        (* a KASSERT that does not hold *)
| LoopBound.          (* the model's bound on a goto loop was reached *)

Inductive result (A : Type) : Type :=
| Ok (a : A)
| Err (e : fault).
Arguments Ok {A} a.
Arguments Err {A} e.

#[global] Instance result_ret : MRet result := fun A a => Ok a.
#[global] Instance result_bind : MBind result := fun A B f m =>
  match m with
  | Ok a => f a
  | Err e => Err e
  end.

#[global] Instance result_fmap : FMap result := fun A B f m =>
  match m with
  | Ok a => Ok (f a)
  | Err e => Err e
  end.

Definition is_ok {A} (r : result A) : Prop :=
  match r with Ok _ => True | Err _ => False end.

(** ** Data model *)

Definition NULL : Z := 0.

Inductive proc_state : Type := PROC_RUNNING | PROC_DEAD.

#[global] Instance proc_state_eq_dec : EqDecision proc_state.
Proof. solve_decision. Defined.

(** Modelled from the spec: fs/file.h is not among the sources.  A shared
    file object with its reference count; proc.c touches [f_refcount]
    (through [fref] and [fput]) and, in [memcpy], the object as a whole. *)
Record file_t : Type := mk_file {
  f_pos : Z;
  f_mode : Z;
  f_refcount : Z;
  f_vnode : Z
}.

(** The descriptor, with the fields proc.c reads and writes (proc.h is not
    among the sources).  [p_wait], [p_children_lock] and the two list
    links have no field: who sleeps and which list a link is on are kept
    in [outcome] and in the lists themselves. *)
Record proc_t : Type := mk_proc {
  p_pid : Z;
  p_name : string;
  p_threads : list Z;     (* kthread_t addresses, in p_threads order *)
  p_children : list Z;    (* proc_t addresses, in p_children order *)
  p_pproc : Z;
  p_status : Z;
  p_state : proc_state;
  p_pml4 : Z;
  p_cwd : Z;              (* vnode address or NULL *)
  p_files : list Z        (* NFILES slots, each a file_t address or NULL *)
}.

(** The thread fields written by proc.c (proc/kthread.h is not among the
    sources); [kt_exited] stands for [kt_state == KT_EXITED]. *)
Record kthread_t : Type := mk_kthread {
  kt_retval : Z;
  kt_exited : bool
}.

(** Calls into the collaborators whose code is outside proc.c. *)
Inductive event : Type :=
| EvKthreadCancel (thr : Z) (retval : Z)
| EvKthreadDestroy (thr : Z)
| EvKthreadExit (retval : Z)
| EvInitprocFinish
| EvBroadcastOn (proc : Z)     (* sched_broadcast_on(&proc->p_wait) *)
| EvSchedSwitch
| EvPtDestroy (pml4 : Z).

Record kstate : Type := mk_kstate {
  st_procs : gmap Z proc_t;      (* allocated descriptors, idleproc included *)
  st_proc_list : list Z;         (* proc_list, head first *)
  st_next_pid : Z;               (* next_pid *)
  st_initproc : Z;               (* proc_initproc *)
  st_curproc : Z;                (* curproc *)
  st_curthr : Z;                 (* curthr *)
  st_threads : gmap Z kthread_t;
  st_slab : list Z;              (* free objects of proc_allocator *)
  st_pagetables : list Z;        (* page tables pt_create can still hand out *)
  st_files : gmap Z file_t;
  st_vnodes : gmap Z Z;          (* vn_refcount of each vnode *)
  st_ints : gmap Z Z;            (* int cells a status pointer may point to *)
  st_trace : list event
}.

Definition set_procs (f : gmap Z proc_t → gmap Z proc_t) (st : kstate) : kstate :=
  mk_kstate (f (st_procs st)) (st_proc_list st) (st_next_pid st) (st_initproc st)
    (st_curproc st) (st_curthr st) (st_threads st) (st_slab st)
    (st_pagetables st) (st_files st) (st_vnodes st) (st_ints st) (st_trace st).

Definition set_proc_list (f : list Z → list Z) (st : kstate) : kstate :=
  mk_kstate (st_procs st) (f (st_proc_list st)) (st_next_pid st) (st_initproc st)
    (st_curproc st) (st_curthr st) (st_threads st) (st_slab st)
    (st_pagetables st) (st_files st) (st_vnodes st) (st_ints st) (st_trace st).

Definition set_next_pid (n : Z) (st : kstate) : kstate :=
  mk_kstate (st_procs st) (st_proc_list st) n (st_initproc st)
    (st_curproc st) (st_curthr st) (st_threads st) (st_slab st)
    (st_pagetables st) (st_files st) (st_vnodes st) (st_ints st) (st_trace st).

Definition set_initproc (p : Z) (st : kstate) : kstate :=
  mk_kstate (st_procs st) (st_proc_list st) (st_next_pid st) p
    (st_curproc st) (st_curthr st) (st_threads st) (st_slab st)
    (st_pagetables st) (st_files st) (st_vnodes st) (st_ints st) (st_trace st).

Definition set_curproc (p : Z) (st : kstate) : kstate :=
  mk_kstate (st_procs st) (st_proc_list st) (st_next_pid st) (st_initproc st)
    p (st_curthr st) (st_threads st) (st_slab st)
    (st_pagetables st) (st_files st) (st_vnodes st) (st_ints st) (st_trace st).

Definition set_curthr (t : Z) (st : kstate) : kstate :=
  mk_kstate (st_procs st) (st_proc_list st) (st_next_pid st) (st_initproc st)
    (st_curproc st) t (st_threads st) (st_slab st)
    (st_pagetables st) (st_files st) (st_vnodes st) (st_ints st) (st_trace st).

Definition set_threads (f : gmap Z kthread_t → gmap Z kthread_t) (st : kstate) : kstate :=
  mk_kstate (st_procs st) (st_proc_list st) (st_next_pid st) (st_initproc st)
    (st_curproc st) (st_curthr st) (f (st_threads st)) (st_slab st)
    (st_pagetables st) (st_files st) (st_vnodes st) (st_ints st) (st_trace st).

Definition set_slab (f : list Z → list Z) (st : kstate) : kstate :=
  mk_kstate (st_procs st) (st_proc_list st) (st_next_pid st) (st_initproc st)
    (st_curproc st) (st_curthr st) (st_threads st) (f (st_slab st))
    (st_pagetables st) (st_files st) (st_vnodes st) (st_ints st) (st_trace st).

Definition set_pagetables (f : list Z → list Z) (st : kstate) : kstate :=
  mk_kstate (st_procs st) (st_proc_list st) (st_next_pid st) (st_initproc st)
    (st_curproc st) (st_curthr st) (st_threads st) (st_slab st)
    (f (st_pagetables st)) (st_files st) (st_vnodes st) (st_ints st) (st_trace st).

Definition set_files (f : gmap Z file_t → gmap Z file_t) (st : kstate) : kstate :=
  mk_kstate (st_procs st) (st_proc_list st) (st_next_pid st) (st_initproc st)
    (st_curproc st) (st_curthr st) (st_threads st) (st_slab st)
    (st_pagetables st) (f (st_files st)) (st_vnodes st) (st_ints st) (st_trace st).

Definition set_vnodes (f : gmap Z Z → gmap Z Z) (st : kstate) : kstate :=
  mk_kstate (st_procs st) (st_proc_list st) (st_next_pid st) (st_initproc st)
    (st_curproc st) (st_curthr st) (st_threads st) (st_slab st)
    (st_pagetables st) (st_files st) (f (st_vnodes st)) (st_ints st) (st_trace st).

Definition set_ints (f : gmap Z Z → gmap Z Z) (st : kstate) : kstate :=
  mk_kstate (st_procs st) (st_proc_list st) (st_next_pid st) (st_initproc st)
    (st_curproc st) (st_curthr st) (st_threads st) (st_slab st)
    (st_pagetables st) (st_files st) (st_vnodes st) (f (st_ints st)) (st_trace st).

Definition set_trace (f : list event → list event) (st : kstate) : kstate :=
  mk_kstate (st_procs st) (st_proc_list st) (st_next_pid st) (st_initproc st)
    (st_curproc st) (st_curthr st) (st_threads st) (st_slab st)
    (st_pagetables st) (st_files st) (st_vnodes st) (st_ints st)
    (f (st_trace st)).

(** Record a call into a collaborator. *)
Definition emit (e : event) (st : kstate) : kstate :=
  set_trace (λ t, t ++ [e]) st.

(** Field updates of a descriptor. *)
Definition with_children (l : list Z) (p : proc_t) : proc_t :=
  mk_proc (p_pid p) (p_name p) (p_threads p) l (p_pproc p) (p_status p) (p_state p)
    (p_pml4 p) (p_cwd p) (p_files p).
Definition with_pproc (q : Z) (p : proc_t) : proc_t :=
  mk_proc (p_pid p) (p_name p) (p_threads p) (p_children p) q (p_status p) (p_state p)
    (p_pml4 p) (p_cwd p) (p_files p).
Definition with_exit (s : Z) (p : proc_t) : proc_t :=
  mk_proc (p_pid p) (p_name p) (p_threads p) (p_children p) (p_pproc p) s PROC_DEAD
    (p_pml4 p) (p_cwd p) (p_files p).
Definition with_cwd (v : Z) (p : proc_t) : proc_t :=
  mk_proc (p_pid p) (p_name p) (p_threads p) (p_children p) (p_pproc p) (p_status p)
    (p_state p) (p_pml4 p) v (p_files p).
Definition with_files (l : list Z) (p : proc_t) : proc_t :=
  mk_proc (p_pid p) (p_name p) (p_threads p) (p_children p) (p_pproc p) (p_status p)
    (p_state p) (p_pml4 p) (p_cwd p) l.

(** ** Memory access *)

(** [table[fd]]; a slot the list does not have reads as empty. *)
Definition slot (table : list Z) (fd : nat) : Z := default NULL (table !! fd).

(** Read the descriptor at address [p]. *)
Definition deref (st : kstate) (p : Z) : result proc_t :=
  match st_procs st !! p with
  | Some r => Ok r
  | None => Err (BadAccess p)
  end.

(** Update the descriptor at address [p] in place. *)
Definition modify (p : Z) (f : proc_t → proc_t) (st : kstate) : result kstate :=
  r ← deref st p;
  Ok (set_procs (insert p (f r)) st).

(** [*p = v] for an [int *p]. *)
Definition store_int (p : Z) (v : Z) (st : kstate) : result kstate :=
  match st_ints st !! p with
  | Some _ => Ok (set_ints (insert p v) st)
  | None => Err (BadAccess p)
  end.

(** Run [body] on the elements of [l] in order, stopping at the first
    fault: the shape of the C [for] loops and of [list_iterate]. *)
Fixpoint for_each {A : Type} (body : A → kstate → result kstate)
    (l : list A) (st : kstate) : result kstate :=
  match l with
  | [] => Ok st
  | x :: l' => st' ← body x st; for_each body l' st'
  end.

(** ** Collaborators outside proc.c *)

(** Modelled from the spec: util/list.h is not among the sources.
    [list_insert_tail] appends a link at the tail of a list. *)
Definition list_insert_tail (x : Z) (l : list Z) : list Z := l ++ [x].

(** Modelled from the spec: util/list.h is not among the sources.
    [list_remove] takes a link out of the list it is on (spec 4.4 "unlink
    the child", 4.5 "removes it from the registry (if not already
    removed)"). *)
Definition list_remove (x : Z) (l : list Z) : list Z :=
  filter (λ y, y ≠ x) l.

(** [list_remove(&child->p_child_link)]: a link only knows its
    neighbours, so the child leaves whichever child list holds it. *)
Definition unlink_child (child : Z) (st : kstate) : kstate :=
  set_procs (fmap (λ r, with_children (list_remove child (p_children r)) r)) st.

(** Modelled from the spec: fs/file.c is not among the sources.
    [fref] is acquire_reference: one more reference on the file. *)
Definition fref (f : Z) (st : kstate) : result kstate :=
  match st_files st !! f with
  | Some o =>
      Ok (set_files (insert f (mk_file (f_pos o) (f_mode o) (f_refcount o + 1) (f_vnode o))) st)
  | None => Err (BadAccess f)
  end.

(** Modelled from the spec: fs/file.c is not among the sources.
    [fput(proc->p_files + fd)] is release_reference on a table slot: the
    slot is emptied and the file loses one reference (what the filesystem
    does with a file nobody references is outside this core). *)
Definition fput (proc : Z) (fd : nat) (st : kstate) : result kstate :=
  r ← deref st proc;
  let f := slot (p_files r) fd in
  st1 ← modify proc (with_files (<[fd := NULL]> (p_files r))) st;
  match st_files st1 !! f with
  | Some o =>
      Ok (set_files (insert f (mk_file (f_pos o) (f_mode o) (f_refcount o - 1) (f_vnode o))) st1)
  | None => Err (BadAccess f)
  end.

(** Modelled from the spec: fs/vnode.c is not among the sources.
    [vref] takes one more reference on a vnode. *)
Definition vref (v : Z) (st : kstate) : result kstate :=
  match st_vnodes st !! v with
  | Some n => Ok (set_vnodes (insert v (n + 1)) st)
  | None => Err (BadAccess v)
  end.

(** Modelled from the spec: fs/vnode.c is not among the sources.
    [vput(&proc->p_cwd)] drops the reference and clears the pointer. *)
Definition vput_cwd (proc : Z) (st : kstate) : result kstate :=
  r ← deref st proc;
  let v := p_cwd r in
  st1 ← modify proc (with_cwd NULL) st;
  match st_vnodes st1 !! v with
  | Some n => Ok (set_vnodes (insert v (n - 1)) st1)
  | None => Err (BadAccess v)
  end.

(** [memcpy(dst, src, sizeof(file_t))]: the object at [src] is copied over
    the object at [dst]; both addresses must hold a file object. *)
Definition memcpy_file (dst src : Z) (st : kstate) : result kstate :=
  match st_files st !! src with
  | Some o =>
      match st_files st !! dst with
      | Some _ => Ok (set_files (insert dst o) st)
      | None => Err (BadAccess dst)
      end
  | None => Err (BadAccess src)
  end.

(** Modelled from the spec: mm/slab.c is not among the sources.  The
    allocator is a black box handing out free descriptors, NULL when it has
    none. *)
Definition slab_obj_alloc (st : kstate) : Z * kstate :=
  match st_slab st with
  | [] => (NULL, st)
  | a :: l => (a, set_slab (λ _, l) st)
  end.

(** Modelled from the spec: mm/slab.c is not among the sources.  The
    descriptor goes back to the allocator and its memory is no longer a
    descriptor. *)
Definition slab_obj_free (p : Z) (st : kstate) : kstate :=
  set_slab (cons p) (set_procs (delete p) st).

(** Modelled from the spec: the page-table code is not among the sources;
    [pt_create] returns a fresh address-space handle. *)
Definition pt_create (st : kstate) : Z * kstate :=
  match st_pagetables st with
  | [] => (NULL, st)
  | a :: l => (a, set_pagetables (λ _, l) st)
  end.

(** ** Configuration constants *)

(** [proc_idleproc_init] gives the idle process pid 0. *)
Definition PID_IDLE : Z := 0.

(** The constants of config.h, proc.h and errno.h, which are not among the
    sources. *)
Class Config : Type := mk_config {
  NFILES : nat;
  PROC_NAME_LEN : nat;
  PROC_MAX_COUNT : Z;
  PID_INIT : Z;
  ENOTSUP : Z;
  ECHILD : Z
}.

(** ** Blocking calls *)

(** Where a sleeping [do_waitpid] resumes: inside the [while] loop on the
    child found for a positive pid, or at the label [iterate]. *)
Inductive wait_pc : Type :=
| PcChild (child : Z)
| PcAny.

(** What a run of [do_waitpid] has come to: it returned, it is asleep in
    [sched_sleep_on], or it faulted. *)
Inductive outcome : Type :=
| Returned (ret : Z) (st : kstate)
| Sleeping (pc : wait_pc) (st : kstate)
| Faulted (e : fault).

Definition returning (ret : Z) (r : result kstate) : outcome :=
  match r with
  | Ok st => Returned ret st
  | Err e => Faulted e
  end.

Section Operations.
Context `{Config}.

(** *** PID allocation *)

(** [pid + 1 == PROC_MAX_COUNT ? 1 : pid + 1] *)
Definition next_id (pid : Z) : Z :=
  if decide (pid + 1 = PROC_MAX_COUNT) then 1 else pid + 1.

(** The [list_iterate] of [_proc_getid]: is some descriptor on the list
    using [pid]? *)
Fixpoint pid_on_list (st : kstate) (l : list Z) (pid : Z) : result bool :=
  match l with
  | [] => Ok false
  | p :: l' =>
      r ← deref st p;
      if decide (p_pid r = pid) then Ok true else pid_on_list st l' pid
  end.

(** The [restart] loop; [None] is the exit through [return -1]. *)
Fixpoint getid_scan (fuel : nat) (st : kstate) (pid : Z) : result (option Z) :=
  match fuel with
  | O => Err LoopBound
  | S fuel' =>
      used ← pid_on_list st (st_proc_list st) pid;
      if used : bool then
        let pid' := next_id pid in
        if decide (pid' = st_next_pid st) then Ok None
        else getid_scan fuel' st pid'
      else Ok (Some pid)
  end.

Definition _proc_getid (st : kstate) : result (Z * kstate) :=
  found ← getid_scan (Z.to_nat PROC_MAX_COUNT) st (st_next_pid st);
  match found with
  | None => Ok (-1, st)
  | Some pid =>
      let st' := set_next_pid (next_id pid) st in
      if decide (pid = 0) then Err AssertFailed else Ok (pid, st')
  end.

(** *** Creation (with __VFS__) *)

(** Body of the descriptor-table loop of [proc_create]. *)
Definition clone_fd (proc : Z) (fd : nat) (st : kstate) : result kstate :=
  cur ← deref st (st_curproc st);
  let f := slot (p_files cur) fd in
  if decide (f ≠ NULL) then
    st1 ← fref f st;
    new ← deref st1 proc;
    memcpy_file (slot (p_files new) fd) f st1
  else Ok st.

Definition clone_cwd (proc : Z) (st : kstate) : result kstate :=
  cur ← deref st (st_curproc st);
  if decide (p_cwd cur ≠ NULL) then
    st1 ← modify proc (with_cwd (p_cwd cur)) st;
    new ← deref st1 proc;
    vref (p_cwd new) st1
  else Ok st.

(** The descriptor as lines 198-221 leave it. *)
Definition fresh_proc (pid : Z) (name : string) (parent pml4 : Z) : proc_t :=
  mk_proc pid (String.substring 0 (PROC_NAME_LEN - 1) name) [] [] parent 0
    PROC_RUNNING pml4 NULL (replicate NFILES NULL).

(** Returns the new descriptor, NULL on failure. *)
Definition proc_create (name : string) (st : kstate) : result (Z * kstate) :=
  '(pid, st1) ← _proc_getid st;
  if decide (pid < 0) then Ok (NULL, st1)
  else
    let '(proc, st2) := slab_obj_alloc st1 in
    if decide (proc = NULL) then Ok (NULL, st2)
    else
      let '(pml4, st3) := pt_create st2 in
      let st4 :=
        set_procs (insert proc (fresh_proc pid name (st_curproc st3) pml4)) st3 in
      st5 ← for_each (clone_fd proc) (seq 0 NFILES) st4;
      st6 ← clone_cwd proc st5;
      let st7 := if decide (pid = PID_INIT) then set_initproc proc st6 else st6 in
      st8 ← modify (st_curproc st7)
              (λ r, with_children (list_insert_tail proc (p_children r)) r) st7;
      Ok (proc, set_proc_list (list_insert_tail proc) st8).

(** *** Exit *)

(** Lines 270-271. *)
Definition cleanup_mark_dead (status : Z) (st : kstate) : result kstate :=
  modify (st_curproc st) (with_exit status) st.

Definition release_fd (proc : Z) (fd : nat) (st : kstate) : result kstate :=
  r ← deref st proc;
  if decide (slot (p_files r) fd ≠ NULL) then fput proc fd st else Ok st.

Definition release_cwd (proc : Z) (st : kstate) : result kstate :=
  r ← deref st proc;
  if decide (p_cwd r ≠ NULL) then vput_cwd proc st else Ok st.

(** Lines 274-282. *)
Definition cleanup_release (st : kstate) : result kstate :=
  st1 ← for_each (release_fd (st_curproc st)) (seq 0 NFILES) st;
  release_cwd (st_curproc st1) st1.

(** Body of the reparenting loop. *)
Definition reparent (child : Z) (st : kstate) : result kstate :=
  let st1 := unlink_child child st in
  st2 ← modify (st_initproc st1)
          (λ r, with_children (list_insert_tail child (p_children r)) r) st1;
  modify child (with_pproc (st_initproc st2)) st2.

(** Lines 285-297.  [list_iterate] reads the next link before it runs the
    body, so moving the current child does not disturb the walk. *)
Definition cleanup_children (st : kstate) : result kstate :=
  cur ← deref st (st_curproc st);
  if decide (p_pid cur = PID_INIT) then Ok (emit EvInitprocFinish st)
  else for_each reparent (p_children cur) st.

Definition proc_cleanup (status : Z) (st : kstate) : result kstate :=
  st1 ← cleanup_mark_dead status st;
  st2 ← cleanup_release st1;
  cleanup_children st2.

Definition proc_thread_exiting (retval : Z) (st : kstate) : result kstate :=
  st1 ← proc_cleanup retval st;
  match st_threads st1 !! st_curthr st1 with
  | None => Err (BadAccess (st_curthr st1))
  | Some _ =>
      let st2 := set_threads (insert (st_curthr st1) (mk_kthread retval true)) st1 in
      cur ← deref st2 (st_curproc st2);
      _ ← deref st2 (p_pproc cur);
      Ok (emit EvSchedSwitch (emit (EvBroadcastOn (p_pproc cur)) st2))
  end.

(** *** Cancellation *)

Definition proc_kill (proc : Z) (status : Z) (st : kstate) : result kstate :=
  r ← deref st proc;
  Ok (foldl (λ s thr, emit (EvKthreadCancel thr status) s) st (p_threads r)).

(** [kthread_exit] is outside proc.c; the call is recorded. *)
Definition do_exit (status : Z) (st : kstate) : kstate :=
  emit (EvKthreadExit status) st.

Definition kill_all_body (proc : Z) (st : kstate) : result kstate :=
  r ← deref st proc;
  cur ← deref st (st_curproc st);
  if decide (p_pid r ≠ p_pid cur ∧ p_pid r ≠ PID_IDLE ∧ p_pid r ≠ PID_INIT)
  then proc_kill proc (-1) st
  else Ok st.

Definition proc_kill_all (st : kstate) : result kstate :=
  st1 ← for_each kill_all_body (st_proc_list st) st;
  Ok (do_exit (-1) st1).

(** *** Destruction (with __VFS__, without __VM__) *)

Definition proc_destroy (proc : Z) (st : kstate) : result kstate :=
  let st1 := set_proc_list (list_remove proc) st in
  r ← deref st1 proc;
  let st2 := foldl (λ s thr, emit (EvKthreadDestroy thr) s) st1 (p_threads r) in
  st3 ← for_each (release_fd proc) (seq 0 NFILES) st2;
  st4 ← release_cwd proc st3;
  r4 ← deref st4 proc;
  if decide (p_pml4 r4 = NULL) then Err AssertFailed
  else Ok (slab_obj_free proc (emit (EvPtDestroy (p_pml4 r4)) st4)).

(** *** Wait *)

(** [*status = child->p_status; list_remove(&child->p_child_link);
    proc_destroy(child);] *)
Definition reap (child : Z) (status : Z) (st : kstate) : result kstate :=
  r ← deref st child;
  st1 ← store_int status (p_status r) st;
  proc_destroy child (unlink_child child st1).

(** The [while] loop of the positive-pid branch, from its test. *)
Definition wait_child (child : Z) (pid status : Z) (st : kstate) : outcome :=
  match deref st child with
  | Err e => Faulted e
  | Ok r =>
      if decide (p_state r ≠ PROC_DEAD) then Sleeping (PcChild child) st
      else returning pid (reap child status st)
  end.

(** The [list_iterate] of the positive-pid branch. *)
Fixpoint wait_find (l : list Z) (pid status : Z) (st : kstate) : outcome :=
  match l with
  | [] => Returned (- ECHILD) st
  | child :: l' =>
      match deref st child with
      | Err e => Faulted e
      | Ok r =>
          if decide (p_pid r = pid) then wait_child child pid status st
          else wait_find l' pid status st
      end
  end.

(** The [list_iterate] after the label [iterate]. *)
Fixpoint wait_scan (l : list Z) (status : Z) (st : kstate) : outcome :=
  match l with
  | [] => Sleeping PcAny st
  | child :: l' =>
      match deref st child with
      | Err e => Faulted e
      | Ok r =>
          if decide (p_state r = PROC_DEAD)
          then returning (p_pid r) (reap child status st)
          else wait_scan l' status st
      end
  end.

Definition wait_any (status : Z) (st : kstate) : outcome :=
  match deref st (st_curproc st) with
  | Err e => Faulted e
  | Ok cur => wait_scan (p_children cur) status st
  end.

(** [do_waitpid] from its entry to its first return or sleep. *)
Definition do_waitpid (pid status options : Z) (st : kstate) : outcome :=
  if decide (pid = 0 ∨ pid < -1 ∨ options ≠ 0) then Returned (- ENOTSUP) st
  else
    match deref st (st_curproc st) with
    | Err e => Faulted e
    | Ok cur =>
        if decide (pid > 0) then wait_find (p_children cur) pid status st
        else if decide (p_children cur = []) then Returned (- ECHILD) st
        else wait_any status st
    end.

(** [do_waitpid] from a wake-up to its next return or sleep. *)
Definition do_waitpid_resume (pc : wait_pc) (pid status : Z) (st : kstate) : outcome :=
  match pc with
  | PcChild child => wait_child child pid status st
  | PcAny => wait_any status st
  end.

(** A whole call: while the caller sleeps the other threads run, one
    element of [wakes] per sleep; the caller is still asleep if [wakes]
    ends first. *)
Fixpoint wait_loop (wakes : list (kstate → kstate)) (o : outcome)
    (pid status : Z) : outcome :=
  match o with
  | Sleeping pc st =>
      match wakes with
      | [] => o
      | w :: wakes' =>
          wait_loop wakes' (do_waitpid_resume pc pid status (w st)) pid status
      end
  | _ => o
  end.

Definition do_waitpid_run (wakes : list (kstate → kstate))
    (pid status options : Z) (st : kstate) : outcome :=
  wait_loop wakes (do_waitpid pid status options st) pid status.

End Operations.

(** ** Vocabulary of the statements *)

(** Every link on [proc_list] is the link of an allocated descriptor. *)
Definition registry_ok (st : kstate) : Prop :=
  Forall (λ p, is_Some (st_procs st !! p)) (st_proc_list st).

(** Every link on the list [l] is the link of an allocated descriptor. *)
Definition links_ok (st : kstate) (l : list Z) : Prop :=
  Forall (λ p, is_Some (st_procs st !! p)) l.

(** [pid] is the pid of a descriptor on the list [l]. *)
Definition pid_among (st : kstate) (l : list Z) (pid : Z) : Prop :=
  ∃ p r, p ∈ l ∧ st_procs st !! p = Some r ∧ p_pid r = pid.

Definition pid_registered (st : kstate) (pid : Z) : Prop :=
  pid_among st (st_proc_list st) pid.


(** The table and working directory of [r] hold only live objects. *)
Definition table_ok (st : kstate) (r : proc_t) : Prop :=
  Forall (λ f, f = NULL ∨ f ∈ dom (st_files st)) (p_files r) ∧
  (p_cwd r = NULL ∨ p_cwd r ∈ dom (st_vnodes st)).


(** [r'] is [r] after some of its file references were released. *)
Definition released_from (r r' : proc_t) : Prop :=
  p_pid r' = p_pid r ∧ p_name r' = p_name r ∧ p_threads r' = p_threads r ∧
  p_children r' = p_children r ∧ p_pproc r' = p_pproc r ∧
  p_status r' = p_status r ∧ p_state r' = p_state r ∧ p_pml4 r' = p_pml4 r ∧
  Forall (λ f, f = NULL ∨ f ∈ p_files r) (p_files r') ∧
  (p_cwd r' = NULL ∨ p_cwd r' = p_cwd r).

(** [st'] is [st] after [proc] released some of its file references:
    only the table of [proc] and the contents of file and vnode objects
    differ. *)
Definition fs_step (proc : Z) (st st' : kstate) : Prop :=
  ∃ r r' fs vs,
    st_procs st !! proc = Some r ∧ released_from r r' ∧
    dom fs = dom (st_files st) ∧ dom vs = dom (st_vnodes st) ∧
    st' = set_vnodes (λ _, vs) (set_files (λ _, fs) (set_procs (insert proc r') st)).




(** The fields of a descriptor that reparenting leaves alone. *)
Definition same_self (r r' : proc_t) : Prop :=
  p_pid r' = p_pid r ∧ p_name r' = p_name r ∧ p_threads r' = p_threads r ∧
  p_status r' = p_status r ∧ p_state r' = p_state r ∧ p_pml4 r' = p_pml4 r ∧
  p_cwd r' = p_cwd r ∧ p_files r' = p_files r.

(** [st'] is [st] after the processes on [l] were handed to the
    descriptor [i]: they have [i] as parent and are among its children,
    other child lists have lost them, and nothing else has changed. *)
Definition adopted (i : Z) (l : list Z) (st st' : kstate) : Prop :=
  st_initproc st' = st_initproc st ∧ st_curproc st' = st_curproc st ∧
  (∀ q, st_procs st !! q = None → st_procs st' !! q = None) ∧
  ∀ q r, st_procs st !! q = Some r →
    ∃ r', st_procs st' !! q = Some r' ∧ same_self r r' ∧
      (q ∈ l → p_pproc r' = i) ∧
      (q ∉ l → p_pproc r' = p_pproc r) ∧
      (q ≠ i → ∀ x, x ∈ p_children r' → x ∈ p_children r ∧ x ∉ l) ∧
      (q = i → ∀ x, x ∈ p_children r ∨ x ∈ l → x ∈ p_children r').

(** How many of the slots [fds] of [table] hold the file [f]. *)
Fixpoint occupancy (table : list Z) (fds : list nat) (f : Z) : Z :=
  match fds with
  | [] => 0
  | fd :: fds' => (if decide (slot table fd = f) then 1 else 0) + occupancy table fds' f
  end.

(** No descriptor appears and no process changes state. *)
Definition state_kept (st st' : kstate) : Prop :=
  ∀ q r', st_procs st' !! q = Some r' →
    ∃ r, st_procs st !! q = Some r ∧ p_state r' = p_state r.

(** The same, except that the current process may have become DEAD. *)
Definition exit_kept (st st' : kstate) : Prop :=
  ∀ q r', st_procs st' !! q = Some r' →
    ∃ r, st_procs st !! q = Some r ∧
      (p_state r' = p_state r ∨ (q = st_curproc st ∧ p_state r' = PROC_DEAD)).

(** The operations of the lifecycle, as a thread may run them. *)
Inductive op : Type :=
| OpCreate (name : string)
| OpExit (retval : Z)
| OpKillAll
| OpWait (pid status options : Z)
| OpWake (pc : wait_pc) (pid status : Z)
| OpSwitch (proc thr : Z).

Section Vocabulary.
Context `{Config}.

(** The candidates the [restart] loop has left behind when it tests
    [pid], having started from [n]. *)
Definition visited (n pid q : Z) : Prop :=
  (n ≤ pid ∧ n ≤ q < pid) ∨ (pid < n ∧ (n ≤ q < PROC_MAX_COUNT ∨ 1 ≤ q < pid)).

(** How many candidates are still to be tested. *)
Definition remaining (n pid : Z) : Z :=
  if decide (n ≤ pid) then (PROC_MAX_COUNT - pid) + (n - 1) else n - pid.

(** [proc_kill_all] spares the caller, idle and init. *)
Definition spared (cur r : proc_t) : Prop :=
  p_pid r = p_pid cur ∨ p_pid r = PID_IDLE ∨ p_pid r = PID_INIT.

(** The cancellations [proc_kill_all] requests when it walks [l]. *)
Definition cancel_requests (st : kstate) (cur : proc_t) (l : list Z) : list event :=
  p ← l;
  match st_procs st !! p with
  | Some r =>
      if decide (spared cur r) then []
      else (λ thr, EvKthreadCancel thr (-1)) <$> p_threads r
  | None => []
  end.

(** One operation that comes back (or goes to sleep) takes the kernel
    from one state to the next; [OpSwitch] is the scheduler handing the
    processor to another thread. *)
Inductive kstep : op → kstate → kstate → Prop :=
| step_create name st p st' :
    proc_create name st = Ok (p, st') → kstep (OpCreate name) st st'
| step_exit retval st st' :
    proc_thread_exiting retval st = Ok st' → kstep (OpExit retval) st st'
| step_kill_all st st' :
    proc_kill_all st = Ok st' → kstep OpKillAll st st'
| step_wait_return pid status options st ret st' :
    do_waitpid pid status options st = Returned ret st' →
    kstep (OpWait pid status options) st st'
| step_wait_sleep pid status options st pc st' :
    do_waitpid pid status options st = Sleeping pc st' →
    kstep (OpWait pid status options) st st'
| step_wake_return pc pid status st ret st' :
    do_waitpid_resume pc pid status st = Returned ret st' →
    kstep (OpWake pc pid status) st st'
| step_wake_sleep pc pid status st pc' st' :
    do_waitpid_resume pc pid status st = Sleeping pc' st' →
    kstep (OpWake pc pid status) st st'
| step_switch proc thr st :
    kstep (OpSwitch proc thr) st (set_curthr thr (set_curproc proc st)).

End Vocabulary.

(** ** The rest of proc.c and its user in fs/open.c *)

From stdpp Require Import pretty.

Local Open Scope Z_scope.

Section MoreOperations.
Context `{Config}.

(** The constant of errno.h that [get_empty_fd] uses; errno.h is not among
  the sources. *)
Variable EMFILE : Z.

(** The [list_iterate] of [proc_lookup]. *)
Fixpoint lookup_walk (st : kstate) (l : list Z) (pid : Z) : result Z :=
match l with
| [] => Ok NULL
| p :: l' =>
    r ← deref st p;
    if decide (p_pid r = pid) then Ok p else lookup_walk st l' pid
end.

(** [idleproc] is the address of the statically allocated idle process of
  the core. *)
Definition proc_lookup (idleproc pid : Z) (st : kstate) : result Z :=
if decide (pid = 0) then Ok idleproc
else lookup_walk st (st_proc_list st) pid.

(** [proc_idleproc_init] (without __VM__).  [pml4] is what [pt_get]
  returns and [core] is [curcore.kc_id]; the name is what
  [snprintf(name, 8, "idle%ld", core)] leaves, copied with [strncpy]. *)
Definition proc_idleproc_init (idleproc pml4 core : Z) (st : kstate) : kstate :=
let name := String.substring 0 7 ("idle" +:+ pretty core) in
let proc :=
  mk_proc 0 (String.substring 0 (PROC_NAME_LEN - 1) name) [] [] NULL 0
    PROC_RUNNING pml4 NULL (replicate NFILES NULL) in
set_curthr NULL (set_curproc idleproc (set_procs (insert idleproc proc) st)).

(** The loop of [get_empty_fd] with [n] slots still to test, [*fd] being
  [fd]. *)
Fixpoint empty_fd_loop (n : nat) (fd : nat) (fdp : Z) (st : kstate)
  : result (Z * kstate) :=
match n with
| O =>
    st' ← store_int fdp (-1) st;
    Ok (- EMFILE, st')
| S n' =>
    cur ← deref st (st_curproc st);
    if decide (slot (p_files cur) fd = NULL) then Ok (0, st)
    else
      st' ← store_int fdp (Z.of_nat (S fd)) st;
      empty_fd_loop n' (S fd) fdp st'
end.

(** [get_empty_fd(fd)] of fs/open.c; [fdp] is the pointer [fd]. *)
Definition get_empty_fd (fdp : Z) (st : kstate) : result (Z * kstate) :=
st0 ← store_int fdp 0 st;
empty_fd_loop NFILES 0 fdp st0.

End MoreOperations.

(** ** More vocabulary *)

(** No two registered descriptors have the same pid. *)
Definition pids_unique (st : kstate) : Prop :=
  ∀ p q rp rq, p ∈ st_proc_list st → q ∈ st_proc_list st →
    st_procs st !! p = Some rp → st_procs st !! q = Some rq →
    p_pid rp = p_pid rq → p = q.

(** Nothing changes which descriptors exist, which are free and which are
    registered, nor the pid of any of them. *)
Definition ids_kept (st st' : kstate) : Prop :=
  st_proc_list st' = st_proc_list st ∧ st_next_pid st' = st_next_pid st ∧
  st_slab st' = st_slab st ∧
  (∀ q, st_procs st !! q = None → st_procs st' !! q = None) ∧
  (∀ q r, st_procs st !! q = Some r →
     ∃ r', st_procs st' !! q = Some r' ∧ p_pid r' = p_pid r).


(** [st'] is [st] after some of the links of [l] were moved between child
    lists: every descriptor is still there with what [same_self] lists,
    child lists hold the same links apart from those of [l], and only the
    processes of [l] may have another parent. *)
Definition relinking (l : list Z) (st st' : kstate) : Prop :=
  ∀ q r, st_procs st !! q = Some r →
    ∃ r', st_procs st' !! q = Some r' ∧ same_self r r' ∧
      (∀ x, x ∉ l → x ∈ p_children r' ↔ x ∈ p_children r) ∧
      (q ∉ l → p_pproc r' = p_pproc r).

Section MoreVocabulary.
Context `{Config}.

(** The registry invariant: every registered link is an allocated
  descriptor, no descriptor is registered twice, registered pids are
  distinct and in [1, PROC_MAX_COUNT), the cursor is in that range, and
  the objects the allocator can hand out are distinct and hold no
  descriptor. *)
Definition kernel_ok (st : kstate) : Prop :=
registry_ok st ∧ NoDup (st_proc_list st) ∧ pids_unique st ∧
(∀ p r, p ∈ st_proc_list st → st_procs st !! p = Some r →
   1 ≤ p_pid r < PROC_MAX_COUNT) ∧
1 ≤ st_next_pid st < PROC_MAX_COUNT ∧
NoDup (st_slab st) ∧ (∀ a, a ∈ st_slab st → st_procs st !! a = None).

End MoreVocabulary.

(** ** Path tokens: namev_tokenize of fs/namev.c *)

From Stdlib Require Import Ascii.

(** A C string is the list of the characters it starts with, a pointer
    into it the suffix it points to, [None] being NULL; past the end of
    the list the terminating NUL is read. *)
Definition NUL : ascii := "000"%char.

Definition SLASH : ascii := "/"%char.

(** The character a pointer points to. *)
Definition peek (s : list ascii) : ascii := default NUL (head s).

(** The first loop: skip the initial '/' characters. *)
Fixpoint skip_slashes (s : list ascii) : list ascii :=
  match s with
  | c :: s' => if decide (c = SLASH) then skip_slashes s' else s
  | [] => s
  end.

(** The second loop: advance to the next '/' or to the end of the path,
    counting the characters passed.  Returns the count and the pointer. *)
Fixpoint scan_token (s : list ascii) : nat * list ascii :=
  match s with
  | c :: s' =>
      if decide (c ≠ NUL ∧ c ≠ SLASH) then
        let '(n, r) := scan_token s' in (S n, r)
      else (O, s)
  | [] => (O, s)
  end.

(** [namev_tokenize(search, len)]: the pointer returned, the length left
    in [len], and the pointer left in [search]. *)
Definition namev_tokenize (search : option (list ascii))
    : option (list ascii) * nat * option (list ascii) :=
  match search with
  | None => (None, O, None)
  | Some s =>
      let begin := skip_slashes s in
      let '(len, rest) := scan_token begin in
      (Some begin, len, if decide (peek rest = NUL) then None else Some rest)
  end.

(** A character of a path component. *)
Definition name_char (c : ascii) : Prop := c ≠ NUL ∧ c ≠ SLASH.

(** ** A small configuration and concrete kernel states *)

Definition small_config : Config := mk_config 2 8 8 1 95 10.

(** Just after [proc_idleproc_init]: only the idle process exists. *)
Definition st_boot : kstate :=
  mk_kstate
    {[100 := mk_proc 0 "idle0" [] [] NULL 0 PROC_RUNNING 1000 NULL [NULL; NULL]]}
    [] 1 NULL 100 NULL ∅ [200; 300; 400] [1001; 1002; 1003] ∅ ∅ {[900 := 0]} [].

(** Init (pid 1) and one more process (pid 2) are registered; the cursor
    has come round to 1 again. *)
Definition st_two : kstate :=
  mk_kstate
    {[100 := mk_proc 0 "idle0" [] [200] NULL 0 PROC_RUNNING 1000 NULL [NULL; NULL];
      200 := mk_proc 1 "init" [] [300] 100 0 PROC_RUNNING 1001 NULL [NULL; NULL];
      300 := mk_proc 2 "sh" [] [] 200 0 PROC_RUNNING 1002 NULL [NULL; NULL]]}
    [200; 300] 1 200 200 NULL ∅ [400] [1003] ∅ ∅ {[900 := 0]} [].

(** Every pid of [1, 3) is taken under a configuration with
    PROC_MAX_COUNT = 3. *)
Definition tiny_config : Config := mk_config 2 8 3 1 95 10.

(** Init runs.  Its children are a running shell (pid 2), which has a file
    open in slot 0, a working directory and a child of its own (pid 4),
    and a zombie (pid 3) that exited with status 7. *)
Definition init_proc : proc_t :=
  mk_proc 1 "init" [620] [300; 400] 100 0 PROC_RUNNING 1001 NULL [NULL; NULL].
Definition sh_proc : proc_t :=
  mk_proc 2 "sh" [630] [500] 200 0 PROC_RUNNING 1002 800 [700; NULL].
Definition zombie_proc : proc_t :=
  mk_proc 3 "zombie" [640] [] 200 7 PROC_DEAD 1003 NULL [NULL; NULL].
Definition job_proc : proc_t :=
  mk_proc 4 "job" [650] [] 300 0 PROC_RUNNING 1004 NULL [NULL; NULL].

Definition st_family : kstate :=
  mk_kstate
    {[100 := mk_proc 0 "idle0" [] [200] NULL 0 PROC_RUNNING 1000 NULL [NULL; NULL];
      200 := init_proc; 300 := sh_proc; 400 := zombie_proc; 500 := job_proc]}
    [200; 300; 400; 500] 5 200 200 620
    {[620 := mk_kthread 0 false; 630 := mk_kthread 0 false;
      640 := mk_kthread 7 true; 650 := mk_kthread 0 false;
      660 := mk_kthread 0 false]}
    [600; 601] [1005; 1006]
    {[700 := mk_file 0 1 2 800]} {[800 := 3]} {[900 := 0]} [].

(** The same kernel while the shell runs. *)
Definition st_shell : kstate := set_curthr 630 (set_curproc 300 st_family).

(** The same again, on a machine where address 0 is mapped memory. *)
Definition st_shell_lowmem : kstate :=
  set_files (insert NULL (mk_file 0 0 0 0)) st_shell.

(** What the other threads do while init sleeps in [do_waitpid]: on one
    wake-up nothing that concerns the shell, on another the shell's only
    thread exits with status 5. *)
Definition sibling_wakeup (s : kstate) : kstate := emit (EvBroadcastOn 200) s.


(** ** More concrete states *)

(** The kernel before [proc_idleproc_init]: nothing exists yet. *)
Definition st_cold : kstate :=
  mk_kstate ∅ [] 1 NULL NULL NULL ∅ [200; 300; 400] [1001; 1002; 1003] ∅ ∅
    {[900 := 0]} [].

(** [st_two] after init has created one more process. *)
Definition st_two_created : kstate :=
  match @proc_create small_config "job" st_two with
  | Ok (_, s) => s
  | Err _ => st_two
  end.

(** [st_shell_lowmem] after the shell has created a process. *)
Definition st_lowmem_created : kstate :=
  match @proc_create small_config "job" st_shell_lowmem with
  | Ok (_, s) => s
  | Err _ => st_shell_lowmem
  end.

(** The shell and its job once they have exited, with status 5 and 9. *)
Definition sh_dead : proc_t :=
  mk_proc 2 "sh" [630] [] 200 5 PROC_DEAD 1002 NULL [NULL; NULL].


(** [st_shell] after the shell's [proc_cleanup], and after the whole of its
    exit, with status 5. *)
Definition st_shell_cleaned : kstate :=
  match @proc_cleanup small_config 5 st_shell with
  | Ok s => s
  | Err _ => st_shell
  end.



(** * Properties *)

Section GetId.
Context `{Config}.

Lemma pid_on_list_spec st l pid :
  Forall (λ p, is_Some (st_procs st !! p)) l →
  ∃ b, pid_on_list st l pid = Ok b ∧ (b = true ↔ pid_among st l pid).
Proof.
  induction 1 as [|p l [r Hr] _ IH]; simpl.
  - exists false. split; [done|]. split; [done|].
    intros (p & r & Hin & _). by apply elem_of_nil in Hin.
  - unfold deref. rewrite Hr. simpl.
    destruct (decide (p_pid r = pid)) as [Heq|Hne].
    + exists true. split; [done|]. split; [|done].
      intros _. exists p, r. split; [left|done].
    + destruct IH as (b & Hb & Hiff). exists b. split; [done|].
      rewrite Hiff. split.
      * intros (q & rq & Hin & Hq & Hpid). exists q, rq. split; [by right|done].
      * intros (q & rq & Hin & Hq & Hpid).
        apply elem_of_cons in Hin as [->|Hin]; [congruence|].
        by exists q, rq.
Qed.

Lemma getid_scan_spec st fuel : ∀ pid,
  1 ≤ st_next_pid st < PROC_MAX_COUNT →
  registry_ok st →
  1 ≤ pid < PROC_MAX_COUNT →
  (∀ q, visited (st_next_pid st) pid q → pid_registered st q) →
  remaining (st_next_pid st) pid ≤ Z.of_nat fuel →
  ∃ found, getid_scan fuel st pid = Ok found ∧
    match found with
    | Some p => 1 ≤ p < PROC_MAX_COUNT ∧ ¬ pid_registered st p
    | None => ∀ q, 1 ≤ q < PROC_MAX_COUNT → pid_registered st q
    end.
Proof.
  induction fuel as [|fuel IH]; intros pid Hn Hreg Hpid Hvis Hfuel.
  { unfold remaining in Hfuel. case_decide; lia. }
  simpl.
  destruct (pid_on_list_spec st (st_proc_list st) pid Hreg) as (b & -> & Hb).
  simpl. destruct b.
  - assert (pid_registered st pid) as Hused by by apply Hb.
    unfold next_id. destruct (decide (_ = st_next_pid st)) as [Hwrap|Hgo].
    + eexists; split; [done|]. intros q Hq.
      destruct (decide (q = pid)) as [->|Hne]; [done|].
      apply Hvis. unfold visited. case_decide; lia.
    + apply IH; [done|done| | |].
      * case_decide; lia.
      * intros q Hq. destruct (decide (q = pid)) as [->|Hne]; [done|].
        apply Hvis. unfold visited in *. case_decide; lia.
      * unfold remaining in *. repeat case_decide; lia.
  - eexists; split; [done|]. split; [done|].
    intros Hused. apply Hb in Hused. done.
Qed.

(** C3. Called with the cursor [next_pid] in [1, PROC_MAX_COUNT) (it
    starts at 1 and the allocator keeps it there), the PID allocator
    returns: it yields either a pid of that range that no registered
    process has, or -1, and -1 only when every pid of the range belongs
    to a registered process.  The registry is left as it was and the
    cursor stays in the range. *)
Theorem proc_getid_spec (st : kstate) :
  1 ≤ st_next_pid st < PROC_MAX_COUNT →
  registry_ok st →
  ∃ pid st', _proc_getid st = Ok (pid, st') ∧
    ((1 ≤ pid < PROC_MAX_COUNT ∧ ¬ pid_registered st pid) ∨ pid = -1) ∧
    (pid = -1 → ∀ q, 1 ≤ q < PROC_MAX_COUNT → pid_registered st q) ∧
    st_procs st' = st_procs st ∧ st_proc_list st' = st_proc_list st ∧
    1 ≤ st_next_pid st' < PROC_MAX_COUNT.
Proof.
  intros Hn Hreg. unfold _proc_getid.
  destruct (getid_scan_spec st (Z.to_nat PROC_MAX_COUNT) (st_next_pid st))
    as (found & -> & Hfound); [done|done|done| | |].
  { intros q Hq. unfold visited in Hq. lia. }
  { unfold remaining. case_decide; lia. }
  simpl. destruct found as [pid|].
  - destruct Hfound as [Hpid Hfree].
    destruct (decide (pid = 0)) as [->|_]; [lia|].
    eexists _, _. split; [done|]. split; [by left|].
    split; [lia|]. split; [done|]. split; [done|].
    simpl. unfold next_id. case_decide; lia.
  - eexists _, _. split; [done|]. split; [by right|]. done.
Qed.

End GetId.


Section WaitErrors.
Context `{Config}.

Lemma wait_loop_returned wakes ret st pid status :
  wait_loop wakes (Returned ret st) pid status = Returned ret st.
Proof. by destruct wakes. Qed.

Lemma wait_loop_faulted wakes e pid status :
  wait_loop wakes (Faulted e) pid status = Faulted e.
Proof. by destruct wakes. Qed.

(** C8. A call with pid zero, pid below -1, or non-zero options returns
    -ENOTSUP at once: it never sleeps, whatever wake-ups are on offer,
    and the kernel state is the one it was called in. *)
Theorem do_waitpid_enotsup (wakes : list (kstate → kstate))
    (pid status options : Z) (st : kstate) :
  pid = 0 ∨ pid < -1 ∨ options ≠ 0 →
  do_waitpid_run wakes pid status options st = Returned (- ENOTSUP) st.
Proof.
  intros Hbad. unfold do_waitpid_run, do_waitpid.
  rewrite decide_True by done. apply wait_loop_returned.
Qed.





End WaitErrors.

Section KillAll.
Context `{Config}.

Lemma set_trace_id st : set_trace (λ t, t ++ []) st = st.
Proof. destruct st. unfold set_trace. simpl. by rewrite app_nil_r. Qed.

Lemma set_trace_twice f g st :
  set_trace f (set_trace g st) = set_trace (λ t, f (g t)) st.
Proof. done. Qed.

Lemma set_trace_app l1 l2 st :
  set_trace (λ t, t ++ l2) (set_trace (λ t, t ++ l1) st)
  = set_trace (λ t, t ++ l1 ++ l2) st.
Proof. unfold set_trace. simpl. by rewrite app_assoc. Qed.

Lemma emit_all (f : Z → event) l : ∀ st,
  foldl (λ s thr, emit (f thr) s) st l = set_trace (λ t, t ++ (f <$> l)) st.
Proof.
  induction l as [|thr l IH]; intros st; simpl.
  - by rewrite set_trace_id.
  - rewrite IH. unfold emit. by rewrite set_trace_app.
Qed.

Lemma proc_kill_trace proc status st r :
  st_procs st !! proc = Some r →
  proc_kill proc status st
  = Ok (set_trace (λ t, t ++ ((λ thr, EvKthreadCancel thr status) <$> p_threads r)) st).
Proof.
  intros Hr. unfold proc_kill, deref. rewrite Hr. simpl. f_equal.
  apply emit_all.
Qed.

Lemma kill_all_body_trace st p r cur :
  st_procs st !! p = Some r →
  st_procs st !! st_curproc st = Some cur →
  kill_all_body p st
  = Ok (set_trace (λ t, t ++ (if decide (spared cur r) then []
                              else (λ thr, EvKthreadCancel thr (-1)) <$> p_threads r)) st).
Proof.
  intros Hr Hcur. unfold kill_all_body, deref. rewrite Hr, Hcur. simpl.
  destruct (decide (spared cur r)) as [Hs|Hs].
  - rewrite decide_False by (unfold spared in Hs; tauto).
    by rewrite set_trace_id.
  - rewrite decide_True
      by (unfold spared in Hs; repeat split; intros ?; apply Hs; tauto).
    by apply proc_kill_trace.
Qed.

Lemma kill_all_walk st cur l : ∀ st0,
  st_procs st0 = st_procs st → st_curproc st0 = st_curproc st →
  st_procs st !! st_curproc st = Some cur →
  links_ok st l →
  for_each kill_all_body l st0
  = Ok (set_trace (λ t, t ++ cancel_requests st cur l) st0).
Proof.
  intros st0 Hp Hc Hcur Hl. revert st0 Hp Hc.
  induction Hl as [|p l [r Hr] _ IH]; intros st0 Hp Hc; simpl.
  { by rewrite set_trace_id. }
  rewrite (kill_all_body_trace st0 p r cur) by (rewrite ?Hp, ?Hc; done).
  simpl. rewrite IH by done. rewrite set_trace_app.
  unfold cancel_requests. simpl. by rewrite Hr.
Qed.

Lemma cancel_requests_elem st cur l e :
  e ∈ cancel_requests st cur l ↔
  ∃ p r thr, e = EvKthreadCancel thr (-1) ∧ p ∈ l ∧
    st_procs st !! p = Some r ∧ thr ∈ p_threads r ∧ ¬ spared cur r.
Proof.
  unfold cancel_requests. rewrite list_elem_of_bind. split.
  - intros (p & He & Hin). destruct (st_procs st !! p) as [r|] eqn:Hr.
    + destruct (decide (spared cur r)); [by apply elem_of_nil in He|].
      apply list_elem_of_fmap in He as (thr & -> & Hthr). by exists p, r, thr.
    + by apply elem_of_nil in He.
  - intros (p & r & thr & -> & Hin & Hr & Hthr & Hs). exists p. split; [|done].
    rewrite Hr. rewrite decide_False by done.
    apply list_elem_of_fmap. by exists thr.
Qed.

(** C6. When every registered link is an allocated descriptor,
    [proc_kill_all] changes nothing but the record of calls: it asks
    for the cancellation, with status -1, of exactly the threads of the
    registered processes whose pid is neither the caller's, nor
    PID_IDLE, nor PID_INIT, and its last act is the caller's own exit
    with status -1. *)
Theorem proc_kill_all_spec (st : kstate) (cur : proc_t) :
  st_procs st !! st_curproc st = Some cur →
  registry_ok st →
  ∃ cancels,
    proc_kill_all st
    = Ok (set_trace (λ t, t ++ cancels ++ [EvKthreadExit (-1)]) st) ∧
    ∀ e, e ∈ cancels ↔
      ∃ p r thr, e = EvKthreadCancel thr (-1) ∧ p ∈ st_proc_list st ∧
        st_procs st !! p = Some r ∧ thr ∈ p_threads r ∧
        p_pid r ≠ p_pid cur ∧ p_pid r ≠ PID_IDLE ∧ p_pid r ≠ PID_INIT.
Proof.
  intros Hcur Hreg. exists (cancel_requests st cur (st_proc_list st)). split.
  - unfold proc_kill_all. erewrite kill_all_walk; [|done|done|done|done].
    simpl. unfold do_exit, emit. by rewrite set_trace_app.
  - intros e. rewrite cancel_requests_elem. unfold spared.
    split; intros (p & r & thr & He & Hin & Hr & Hthr & Hs);
      exists p, r, thr; repeat split; try done; tauto.
Qed.

End KillAll.

(** ** Releasing file references *)

Section Release.
Context `{Config}.

Lemma released_from_refl r : released_from r r.
Proof.
  repeat split; try done; [|by right].
  apply Forall_forall. intros f Hf. by right.
Qed.

Lemma released_from_trans r1 r2 r3 :
  released_from r1 r2 → released_from r2 r3 → released_from r1 r3.
Proof.
  intros (?&?&?&?&?&?&?&?&Hf12&Hc12) (?&?&?&?&?&?&?&?&Hf23&Hc23).
  repeat split; try congruence.
  - rewrite Forall_forall in *. intros f Hf.
    destruct (Hf23 f Hf) as [->|Hin]; [by left|]. by apply Hf12.
  - destruct Hc23 as [?|Hc]; [by left|]. rewrite Hc. done.
Qed.

Lemma fs_step_refl proc st r :
  st_procs st !! proc = Some r → fs_step proc st st.
Proof.
  intros Hr. exists r, r, (st_files st), (st_vnodes st).
  split; [done|]. split; [apply released_from_refl|]. split; [done|].
  split; [done|]. destruct st. unfold set_vnodes, set_files, set_procs.
  simpl in *. by rewrite insert_id.
Qed.

Lemma fs_step_trans proc st1 st2 st3 :
  fs_step proc st1 st2 → fs_step proc st2 st3 → fs_step proc st1 st3.
Proof.
  intros (r1 & r2 & fs2 & vs2 & Hr1 & Hrel12 & Hfs2 & Hvs2 & ->).
  intros (r2' & r3 & fs3 & vs3 & Hr2 & Hrel23 & Hfs3 & Hvs3 & ->).
  simpl in *. rewrite lookup_insert_eq in Hr2. injection Hr2 as <-.
  exists r1, r3, fs3, vs3. split; [done|].
  split; [by eapply released_from_trans|].
  split; [congruence|]. split; [congruence|].
  unfold set_vnodes, set_files, set_procs. simpl. by rewrite insert_insert_eq.
Qed.

Lemma fs_step_table_ok proc st st' r :
  fs_step proc st st' → st_procs st !! proc = Some r → table_ok st r →
  ∃ r', st_procs st' !! proc = Some r' ∧ released_from r r' ∧ table_ok st' r'.
Proof.
  intros (r0 & r' & fs & vs & Hr0 & Hrel & Hfs & Hvs & ->) Hr [Hfiles Hcwd].
  assert (r0 = r) as -> by congruence.
  exists r'. simpl. rewrite lookup_insert_eq. split; [done|]. split; [done|].
  destruct Hrel as (_&_&_&_&_&_&_&_&Hf&Hc). split; simpl.
  - rewrite Forall_forall in *. intros f Hin. rewrite Hfs.
    destruct (Hf f Hin) as [->|Hold]; [by left|]. by apply Hfiles.
  - rewrite Hvs. destruct Hc as [-> | ->]; [by left|done].
Qed.

Lemma slot_elem (l : list Z) fd : slot l fd = NULL ∨ slot l fd ∈ l.
Proof.
  unfold slot. destruct (l !! fd) as [f|] eqn:Hf; simpl; [|by left].
  right. by eapply list_elem_of_lookup_2.
Qed.

Lemma fput_step proc fd st st' :
  fput proc fd st = Ok st' → fs_step proc st st'.
Proof.
  unfold fput, modify, deref.
  destruct (st_procs st !! proc) as [r|] eqn:Hr; [|done]. simpl.
  destruct (st_files st !! slot (p_files r) fd) as [o|] eqn:Ho; [|done].
  intros [= <-].
  exists r, (with_files (<[fd:=NULL]> (p_files r)) r),
    (<[slot (p_files r) fd :=
         mk_file (f_pos o) (f_mode o) (f_refcount o - 1) (f_vnode o)]> (st_files st)),
    (st_vnodes st).
  split; [done|]. split; [|split; [|split; [done|reflexivity]]].
  - repeat split; try done; [|by right]. simpl.
    apply Forall_insert; [|by left].
    apply Forall_forall. intros f Hf. by right.
  - apply dom_insert_lookup_L. by eexists.
Qed.

Lemma fput_ok proc fd st r :
  st_procs st !! proc = Some r → slot (p_files r) fd ∈ dom (st_files st) →
  is_ok (fput proc fd st).
Proof.
  intros Hr [o Ho]%elem_of_dom. unfold fput, modify, deref.
  rewrite Hr. simpl. by rewrite Ho.
Qed.

Lemma vput_cwd_step proc st st' :
  vput_cwd proc st = Ok st' → fs_step proc st st'.
Proof.
  unfold vput_cwd, modify, deref.
  destruct (st_procs st !! proc) as [r|] eqn:Hr; [|done]. simpl.
  destruct (st_vnodes st !! p_cwd r) as [n|] eqn:Hn; [|done].
  intros [= <-].
  exists r, (with_cwd NULL r), (st_files st), (<[p_cwd r := n - 1]> (st_vnodes st)).
  split; [done|]. split; [|split; [done|split; [|reflexivity]]].
  - repeat split; try done; [|by left]. simpl.
    apply Forall_forall. intros f Hf. by right.
  - apply dom_insert_lookup_L. by eexists.
Qed.

Lemma release_fd_step proc fd st st' :
  release_fd proc fd st = Ok st' → fs_step proc st st'.
Proof.
  unfold release_fd, deref.
  destruct (st_procs st !! proc) as [r|] eqn:Hr; [|done]. simpl.
  case_decide.
  - apply fput_step.
  - intros [= <-]. by eapply fs_step_refl.
Qed.

Lemma release_fd_ok proc fd st r :
  st_procs st !! proc = Some r → table_ok st r →
  is_ok (release_fd proc fd st).
Proof.
  intros Hr [Hfiles _]. unfold release_fd, deref. rewrite Hr. simpl.
  case_decide as Hocc; [|done]. eapply fput_ok; [done|].
  destruct (slot_elem (p_files r) fd) as [?|Hin]; [done|].
  rewrite Forall_forall in Hfiles. by destruct (Hfiles _ Hin).
Qed.

Lemma release_cwd_step proc st st' :
  release_cwd proc st = Ok st' → fs_step proc st st'.
Proof.
  unfold release_cwd, deref.
  destruct (st_procs st !! proc) as [r|] eqn:Hr; [|done]. simpl.
  case_decide.
  - apply vput_cwd_step.
  - intros [= <-]. by eapply fs_step_refl.
Qed.

Lemma release_cwd_ok proc st r :
  st_procs st !! proc = Some r → table_ok st r →
  is_ok (release_cwd proc st).
Proof.
  intros Hr [_ Hcwd]. unfold release_cwd, vput_cwd, modify, deref.
  rewrite Hr. simpl. case_decide as Hocc; [|done]. simpl.
  destruct Hcwd as [?|[n Hn]%elem_of_dom]; [done|]. by rewrite Hn.
Qed.

Lemma release_fds_step proc fds : ∀ st st' r,
  st_procs st !! proc = Some r →
  for_each (release_fd proc) fds st = Ok st' → fs_step proc st st'.
Proof.
  induction fds as [|fd fds IH]; intros st st' r Hr; simpl.
  - intros [= <-]. by eapply fs_step_refl.
  - destruct (release_fd proc fd st) as [st1|] eqn:H1; [|done]. simpl.
    intros Hrest. pose proof (release_fd_step _ _ _ _ H1) as Hstep.
    eapply fs_step_trans; [done|].
    destruct Hstep as (?&r1&?&?&?&?&?&?&->).
    eapply (IH _ _ r1); [|done]. simpl. by rewrite lookup_insert_eq.
Qed.

Lemma release_fds_ok proc fds : ∀ st r,
  st_procs st !! proc = Some r → table_ok st r →
  is_ok (for_each (release_fd proc) fds st).
Proof.
  induction fds as [|fd fds IH]; intros st r Hr Hok; simpl; [done|].
  pose proof (release_fd_ok proc fd st r Hr Hok) as Hfd.
  destruct (release_fd proc fd st) as [st1|] eqn:H1; [|done]. simpl.
  apply release_fd_step in H1.
  destruct (fs_step_table_ok _ _ _ _ H1 Hr Hok) as (r1 & Hr1 & _ & Hok1).
  by eapply IH.
Qed.

End Release.

(** ** Destruction and reaping *)

Section Destroy.
Context `{Config}.

Lemma proc_destroy_inv proc st st' :
  proc_destroy proc st = Ok st' →
  ∃ r, st_procs st !! proc = Some r ∧
    st_procs st' = delete proc (st_procs st) ∧
    st_proc_list st' = list_remove proc (st_proc_list st) ∧
    st_ints st' = st_ints st ∧
    st_curproc st' = st_curproc st ∧
    st_slab st' = proc :: st_slab st.
Proof.
  unfold proc_destroy, deref. simpl.
  destruct (st_procs st !! proc) as [r|] eqn:Hr; [|done]. simpl.
  rewrite emit_all.
  set (st2 := set_trace _ _).
  destruct (for_each (release_fd proc) (seq 0 NFILES) st2) as [st3|] eqn:H3; [|done].
  simpl. destruct (release_cwd proc st3) as [st4|] eqn:H4; [|done]. simpl.
  assert (fs_step proc st2 st4) as Hstep.
  { eapply fs_step_trans.
    - by eapply (release_fds_step _ _ st2 st3 r).
    - by apply release_cwd_step. }
  destruct Hstep as (r2 & r4 & fs & vs & Hr2 & Hrel & _ & _ & ->).
  unfold deref. simpl. rewrite lookup_insert_eq. simpl.
  case_decide; [done|]. intros [= <-]. exists r. simpl.
  rewrite delete_insert_eq. done.
Qed.


Lemma unlink_child_lookup child st q :
  st_procs (unlink_child child st) !! q
  = (λ r, with_children (list_remove child (p_children r)) r) <$> (st_procs st !! q).
Proof. unfold unlink_child. simpl. apply lookup_fmap. Qed.





End Destroy.

(** ** Reaping a child *)

Section WaitReap.
Context `{Config}.









End WaitReap.

(** ** Reparenting *)

Section Reparent.
Context `{Config}.

Lemma same_self_refl r : same_self r r.
Proof. by repeat split. Qed.

Lemma same_self_trans r1 r2 r3 :
  same_self r1 r2 → same_self r2 r3 → same_self r1 r3.
Proof.
  intros (?&?&?&?&?&?&?&?) (?&?&?&?&?&?&?&?). repeat split; congruence.
Qed.

Lemma adopted_nil i st : adopted i [] st st.
Proof.
  split; [done|]. split; [done|]. split; [done|].
  intros q r Hr. exists r. split; [done|]. split; [apply same_self_refl|].
  split; [by intros ?%elem_of_nil|]. split; [done|].
  split.
  - intros _ x Hx. split; [done|]. by intros ?%elem_of_nil.
  - intros _ x [Hx|Hx]; [done|]. by apply elem_of_nil in Hx.
Qed.

Lemma adopted_cons i c l st st1 st2 :
  adopted i [c] st st1 → adopted i l st1 st2 → adopted i (c :: l) st st2.
Proof.
  intros (Hi1 & Hc1 & Hn1 & H1) (Hi2 & Hc2 & Hn2 & H2).
  split; [congruence|]. split; [congruence|]. split; [by auto|].
  intros q r Hr.
  destruct (H1 q r Hr) as (r1 & Hr1 & Hs1 & Hin1 & Hout1 & Hch1 & Hinit1).
  destruct (H2 q r1 Hr1) as (r2 & Hr2 & Hs2 & Hin2 & Hout2 & Hch2 & Hinit2).
  exists r2. split; [done|]. split; [by eapply same_self_trans|].
  split; [|split; [|split]].
  - intros Hq. destruct (decide (q ∈ l)) as [Hl|Hl]; [by apply Hin2|].
    rewrite Hout2 by done. apply Hin1.
    apply elem_of_cons in Hq as [->|Hq]; [left|done].
  - intros Hq. rewrite not_elem_of_cons in Hq. destruct Hq as [Hqc Hql].
    rewrite Hout2 by done. apply Hout1. by intros ->%list_elem_of_singleton.
  - intros Hqi x Hx. destruct (Hch2 Hqi x Hx) as [Hx1 Hxl].
    destruct (Hch1 Hqi x Hx1) as [Hx0 Hxc]. split; [done|].
    rewrite not_elem_of_cons. split; [|done].
    intros ->. apply Hxc. left.
  - intros Hqi x Hx. apply (Hinit2 Hqi).
    destruct Hx as [Hx|Hx].
    + left. apply (Hinit1 Hqi). by left.
    + apply elem_of_cons in Hx as [->|Hx]; [|by right].
      left. apply (Hinit1 Hqi). right. left.
Qed.

Lemma elem_of_list_remove (x y : Z) l :
  x ∈ list_remove y l ↔ x ≠ y ∧ x ∈ l.
Proof. unfold list_remove. by rewrite list_elem_of_filter. Qed.

(** One turn of the reparenting loop. *)
Lemma reparent_adopts i c st ri rc :
  st_initproc st = i →
  st_procs st !! i = Some ri →
  st_procs st !! c = Some rc →
  ∃ st', reparent c st = Ok st' ∧ adopted i [c] st st'.
Proof.
  intros Hi Hri Hrc. unfold reparent, modify, deref, unlink_child. simpl.
  rewrite Hi, lookup_fmap, Hri. simpl.
  destruct (decide (c = i)) as [Hci|Hci].
  - (* the child is the init process itself *)
    subst c. rewrite lookup_insert_eq. simpl. eexists. split; [done|].
    split; [done|]. split; [done|]. simpl. split.
    + intros q Hq. destruct (decide (q = i)) as [->|Hqi]; [congruence|].
      rewrite !lookup_insert_ne by done. rewrite lookup_fmap, Hq. done.
    + intros q r Hr. destruct (decide (q = i)) as [->|Hqi].
      * rewrite lookup_insert_eq. eexists. split; [done|].
        assert (r = ri) as -> by congruence.
        split; [by repeat split|]. split; [done|].
        split; [by intros []; left|]. split; [done|].
        intros _ x [Hx|Hx]; simpl.
        -- unfold list_insert_tail. rewrite elem_of_app, elem_of_list_remove.
           destruct (decide (x = i)) as [->|Hne]; [right; left|by left].
        -- apply list_elem_of_singleton in Hx as ->.
           unfold list_insert_tail. rewrite elem_of_app. right. left.
      * rewrite !lookup_insert_ne by done. rewrite lookup_fmap, Hr. simpl.
        eexists. split; [done|]. split; [by repeat split|].
        split; [by intros ?%list_elem_of_singleton|]. split; [done|].
        split; [|done]. intros _ x Hx. simpl in Hx.
        apply elem_of_list_remove in Hx as [Hne Hx]. split; [done|].
        by intros ?%list_elem_of_singleton.
  - rewrite lookup_insert_ne by done. rewrite lookup_fmap, Hrc. simpl.
    eexists. split; [done|]. split; [done|]. split; [done|]. simpl. split.
    + intros q Hq. destruct (decide (q = c)) as [->|Hqc]; [congruence|].
      destruct (decide (q = i)) as [->|Hqi]; [congruence|].
      rewrite !lookup_insert_ne by done. rewrite lookup_fmap, Hq. done.
    + intros q r Hr. destruct (decide (q = c)) as [->|Hqc].
      * rewrite lookup_insert_eq. eexists. split; [done|].
        assert (r = rc) as -> by congruence.
        split; [by repeat split|]. split; [done|].
        split; [by intros []; left|]. split; [|done].
        intros _ x Hx. simpl in Hx.
        apply elem_of_list_remove in Hx as [Hne Hx]. split; [done|].
        by intros ?%list_elem_of_singleton.
      * rewrite lookup_insert_ne by done.
        destruct (decide (q = i)) as [->|Hqi].
        -- rewrite lookup_insert_eq. eexists. split; [done|].
           assert (r = ri) as -> by congruence.
           split; [by repeat split|].
           split; [by intros ?%list_elem_of_singleton|]. split; [done|].
           split; [done|]. intros _ x [Hx|Hx]; simpl.
           ++ unfold list_insert_tail. rewrite elem_of_app, elem_of_list_remove.
              destruct (decide (x = c)) as [->|Hne]; [right; left|by left].
           ++ apply list_elem_of_singleton in Hx as ->.
              unfold list_insert_tail. rewrite elem_of_app. right. left.
        -- rewrite lookup_insert_ne by done. rewrite lookup_fmap, Hr. simpl.
           eexists. split; [done|]. split; [by repeat split|].
           split; [by intros ?%list_elem_of_singleton|]. split; [done|].
           split; [|done]. intros _ x Hx. simpl in Hx.
           apply elem_of_list_remove in Hx as [Hne Hx]. split; [done|].
           by intros ?%list_elem_of_singleton.
Qed.

Lemma reparent_all i l : ∀ st ri,
  st_initproc st = i → st_procs st !! i = Some ri → links_ok st l →
  ∃ st', for_each reparent l st = Ok st' ∧ adopted i l st st'.
Proof.
  induction l as [|c l IH]; intros st ri Hi Hri Hl; simpl.
  { exists st. split; [done|]. apply adopted_nil. }
  apply Forall_cons in Hl as [[rc Hrc] Hl].
  destruct (reparent_adopts i c st ri rc Hi Hri Hrc) as (st1 & -> & Had1). simpl.
  pose proof Had1 as (Hi1 & _ & _ & H1).
  destruct (H1 _ _ Hri) as (ri1 & Hri1 & _).
  destruct (IH st1 ri1) as (st2 & Hst2 & Had2); [congruence|done| |].
  { eapply Forall_impl; [exact Hl|]. intros q [r Hr].
    destruct (H1 _ _ Hr) as (r' & Hr' & _). by eexists. }
  exists st2. split; [done|]. by eapply adopted_cons.
Qed.

End Reparent.

(** ** Cleanup *)

Section Cleanup.
Context `{Config}.

Lemma cleanup_mark_dead_eq status st cur :
  st_procs st !! st_curproc st = Some cur →
  cleanup_mark_dead status st
  = Ok (set_procs (insert (st_curproc st) (with_exit status cur)) st).
Proof. intros Hcur. unfold cleanup_mark_dead, modify, deref. by rewrite Hcur. Qed.

Lemma fs_step_curproc proc st st' :
  fs_step proc st st' → st_curproc st' = st_curproc st.
Proof. by intros (?&?&?&?&?&?&?&?&->). Qed.

Lemma cleanup_release_step st st' cur :
  st_procs st !! st_curproc st = Some cur →
  cleanup_release st = Ok st' → fs_step (st_curproc st) st st'.
Proof.
  intros Hcur. unfold cleanup_release.
  destruct (for_each _ _ st) as [st1|] eqn:H1; [|done]. simpl.
  apply (release_fds_step _ _ _ _ cur Hcur) in H1.
  rewrite (fs_step_curproc _ _ _ H1). intros H2%release_cwd_step.
  by eapply fs_step_trans.
Qed.

Lemma cleanup_release_ok st cur :
  st_procs st !! st_curproc st = Some cur → table_ok st cur →
  is_ok (cleanup_release st).
Proof.
  intros Hcur Htab. unfold cleanup_release.
  pose proof (release_fds_ok (st_curproc st) (seq 0 NFILES) st cur Hcur Htab) as Hok.
  destruct (for_each _ _ st) as [st1|] eqn:H1; [|done]. simpl.
  apply (release_fds_step _ _ _ _ cur Hcur) in H1.
  rewrite (fs_step_curproc _ _ _ H1).
  destruct (fs_step_table_ok _ _ _ _ H1 Hcur Htab) as (r1 & Hr1 & _ & Htab1).
  by eapply release_cwd_ok.
Qed.

(** C5. Let a process other than init run [proc_cleanup], with
    [proc_initproc] pointing to an allocated descriptor other than its
    own, its child links pointing to allocated descriptors and its
    table holding live objects.  Then cleanup completes, and afterwards
    every process that was in its child set has [proc_initproc] as its
    parent link and is in the child set of the init process, and its
    own child set is empty. *)
Theorem proc_cleanup_reparents (status : Z) (st : kstate) (cur ri : proc_t) :
  st_procs st !! st_curproc st = Some cur →
  p_pid cur ≠ PID_INIT →
  st_initproc st ≠ st_curproc st →
  st_procs st !! st_initproc st = Some ri →
  links_ok st (p_children cur) →
  table_ok st cur →
  ∃ st', proc_cleanup status st = Ok st' ∧
    st_initproc st' = st_initproc st ∧
    (∀ c, c ∈ p_children cur →
       ∃ rc ri', st_procs st' !! c = Some rc ∧ p_pproc rc = st_initproc st ∧
         st_procs st' !! st_initproc st = Some ri' ∧ c ∈ p_children ri') ∧
    (∃ cur', st_procs st' !! st_curproc st = Some cur' ∧ p_children cur' = []).
Proof.
  intros Hcur Hpid Hne Hri Hlinks Htab.
  unfold proc_cleanup. rewrite (cleanup_mark_dead_eq _ _ cur Hcur). simpl.
  set (st1 := set_procs _ st).
  assert (st_procs st1 !! st_curproc st1 = Some (with_exit status cur)) as Hcur1.
  { simpl. apply lookup_insert_eq. }
  assert (table_ok st1 (with_exit status cur)) as Htab1 by done.
  pose proof (cleanup_release_ok st1 _ Hcur1 Htab1) as Hok.
  destruct (cleanup_release st1) as [st2|] eqn:H2; [|done]. simpl.
  apply (cleanup_release_step _ _ _ Hcur1) in H2.
  destruct H2 as (r1 & r2 & fs & vs & Hr1 & Hrel & _ & _ & Hst2).
  simpl in Hr1. rewrite lookup_insert_eq in Hr1. injection Hr1 as <-.
  destruct Hrel as (Hpid2 & _ & _ & Hch2 & _).
  assert (st_procs st2 = <[st_curproc st := r2]> (st_procs st)) as Hprocs2.
  { rewrite Hst2. simpl. apply insert_insert_eq. }
  assert (st_curproc st2 = st_curproc st) as Hc2 by by rewrite Hst2.
  assert (st_initproc st2 = st_initproc st) as Hi2 by by rewrite Hst2.
  unfold cleanup_children, deref. rewrite Hc2, Hprocs2, lookup_insert_eq. simpl.
  rewrite decide_False by (simpl in Hpid2; congruence).
  rewrite Hch2. simpl.
  destruct (reparent_all (st_initproc st) (p_children cur) st2 ri)
    as (st' & Hrun & Hi' & Hc' & _ & Had); [done| | |].
  { rewrite Hprocs2. by rewrite lookup_insert_ne. }
  { eapply Forall_impl; [exact Hlinks|]. intros q [r Hr]. rewrite Hprocs2.
    destruct (decide (q = st_curproc st)) as [->|Hq].
    - rewrite lookup_insert_eq. by eexists.
    - rewrite lookup_insert_ne by done. by eexists. }
  exists st'. split; [done|]. split; [congruence|]. split.
  - intros c Hin.
    assert (is_Some (st_procs st2 !! c)) as [rc2 Hrc2].
    { rewrite Hprocs2. destruct (decide (c = st_curproc st)) as [->|Hq].
      - rewrite lookup_insert_eq. by eexists.
      - rewrite lookup_insert_ne by done.
        unfold links_ok in Hlinks. rewrite Forall_forall in Hlinks.
        by apply Hlinks. }
    destruct (Had c rc2 Hrc2) as (rc & Hrc & _ & Hparent & _).
    assert (st_procs st2 !! st_initproc st = Some ri) as Hri2.
    { rewrite Hprocs2. by rewrite lookup_insert_ne. }
    destruct (Had _ ri Hri2) as (ri' & Hri' & _ & _ & _ & _ & Hinit).
    exists rc, ri'. split; [done|]. split; [by apply Hparent|].
    split; [done|]. apply Hinit; [done|]. by right.
  - assert (st_procs st2 !! st_curproc st = Some r2) as Hr2.
    { rewrite Hprocs2. apply lookup_insert_eq. }
    destruct (Had _ r2 Hr2) as (cur' & Hcur' & _ & _ & _ & Hlost & _).
    exists cur'. split; [done|]. apply elem_of_nil_inv. intros x Hx.
    destruct (Hlost (not_eq_sym Hne) x Hx) as [Hx2 Hnot].
    simpl in Hch2. rewrite Hch2 in Hx2. done.
Qed.

End Cleanup.

(** ** Creation *)

Section Create.
Context `{Config}.

Lemma set_files_id st : set_files (λ _, st_files st) st = st.
Proof. by destruct st. Qed.

Lemma proc_getid_frame st pid st1 :
  _proc_getid st = Ok (pid, st1) → ∃ n, st1 = set_next_pid n st.
Proof.
  unfold _proc_getid. destruct (getid_scan _ _ _) as [[p|]|]; simpl; [| |done].
  - case_decide; [done|]. intros [= <- <-]. by eexists.
  - intros [= <- <-]. exists (st_next_pid st). by destruct st.
Qed.

Lemma clone_fd_frame proc fd st st' :
  clone_fd proc fd st = Ok st' → ∃ fs, st' = set_files (λ _, fs) st.
Proof.
  unfold clone_fd, deref.
  destruct (st_procs st !! st_curproc st) as [cur|]; [|done]. simpl.
  case_decide; [|intros [= <-]; eexists; by rewrite set_files_id].
  unfold fref. destruct (st_files st !! _) as [o|]; [|done]. simpl.
  destruct (st_procs st !! proc) as [new|]; [|done]. simpl.
  unfold memcpy_file. simpl.
  destruct (_ !! slot (p_files cur) fd) as [o'|]; [|done].
  destruct (_ !! slot (p_files new) fd) as [o''|]; [|done].
  intros [= <-]. by eexists.
Qed.

Lemma clone_fds_frame proc fds : ∀ st st',
  for_each (clone_fd proc) fds st = Ok st' → ∃ fs, st' = set_files (λ _, fs) st.
Proof.
  induction fds as [|fd fds IH]; intros st st'; simpl.
  - intros [= <-]. eexists. by rewrite set_files_id.
  - destruct (clone_fd proc fd st) as [st1|] eqn:H1; [|done]. simpl.
    apply clone_fd_frame in H1 as [fs1 ->].
    intros [fs2 ->]%IH. by eexists.
Qed.

Lemma modify_inv p f st st' :
  modify p f st = Ok st' →
  ∃ r, st_procs st !! p = Some r ∧ st' = set_procs (insert p (f r)) st.
Proof.
  unfold modify, deref. destruct (st_procs st !! p) as [r|]; [|done].
  simpl. intros [= <-]. by exists r.
Qed.

Lemma clone_cwd_inv proc st st' new :
  clone_cwd proc st = Ok st' → st_procs st !! proc = Some new →
  ∃ v, st_procs st' = <[proc := with_cwd v new]> (st_procs st) ∧
    st_curproc st' = st_curproc st.
Proof.
  intros Hrun Hnew. unfold clone_cwd, modify, deref, vref in Hrun.
  destruct (st_procs st !! st_curproc st) as [cur|]; [|done]. simpl in Hrun.
  case_decide.
  - rewrite Hnew in Hrun. simpl in Hrun. rewrite lookup_insert_eq in Hrun.
    simpl in Hrun. destruct (st_vnodes st !! p_cwd cur) as [k|]; [|done].
    injection Hrun as <-. by exists (p_cwd cur).
  - injection Hrun as <-. exists (p_cwd new). split; [|done].
    rewrite insert_id; [done|]. by destruct new.
Qed.

(** What a [proc_create] that comes back has done to the descriptors:
    on failure nothing; on success the new descriptor comes from the
    allocator, is RUNNING with status 0 and an empty table, and the only
    other descriptor touched is the caller's, which gains a child. *)
Lemma proc_create_inv name st p st' :
  proc_create name st = Ok (p, st') →
  (p = NULL ∧ st_procs st' = st_procs st) ∨
  (p ≠ NULL ∧ (∃ l, st_slab st = p :: l) ∧
   (∃ rp, st_procs st' !! p = Some rp ∧ p_state rp = PROC_RUNNING ∧
      p_status rp = 0 ∧ p_files rp = replicate NFILES NULL) ∧
   (∀ q r', q ≠ p → st_procs st' !! q = Some r' →
      ∃ r, st_procs st !! q = Some r ∧
        (r' = r ∨ r' = with_children (list_insert_tail p (p_children r)) r))).
Proof.
  unfold proc_create.
  destruct (_proc_getid st) as [[pid st1]|] eqn:Hid; [|done]. simpl.
  apply proc_getid_frame in Hid as [n ->].
  case_decide; [intros [= <- <-]; by left|].
  unfold slab_obj_alloc. simpl.
  destruct (st_slab st) as [|a slab] eqn:Hslab; [intros [= <- <-]; by left|].
  case_decide; [intros [= <- <-]; by left|].
  destruct (pt_create _) as [pml4 st3] eqn:Hpt.
  assert (st_procs st3 = st_procs st ∧ st_curproc st3 = st_curproc st) as [Hp3 Hc3].
  { unfold pt_create in Hpt. simpl in Hpt.
    destruct (st_pagetables st); injection Hpt as <- <-; done. }
  set (new := fresh_proc pid name _ pml4).
  destruct (for_each _ _ _) as [st5|] eqn:H5; [|done]. simpl.
  apply clone_fds_frame in H5 as [fs ->].
  destruct (clone_cwd a _) as [st6|] eqn:H6; [|done]. simpl.
  apply (clone_cwd_inv _ _ _ new) in H6 as (v & Hp6 & Hc6);
    [|simpl; apply lookup_insert_eq].
  simpl in Hp6, Hc6. rewrite insert_insert_eq, Hp3 in Hp6. rewrite Hc3 in Hc6.
  set (st7 := if decide (pid = PID_INIT) then _ else st6).
  assert (st_procs st7 = st_procs st6 ∧ st_curproc st7 = st_curproc st6) as [Hp7 Hc7].
  { subst st7. by case_decide. }
  destruct (modify _ _ st7) as [st8|] eqn:H8; [|done]. simpl.
  apply modify_inv in H8 as (r & Hr & ->). intros [= <- <-].
  simpl. rewrite Hp7, Hc7, Hc6, Hp6. rewrite Hp7, Hc7, Hc6, Hp6 in Hr.
  right. split; [done|]. split; [by eexists|].
  destruct (decide (st_curproc st = a)) as [Hca|Hca].
  - (* the allocator handed out the caller's own descriptor *)
    rewrite Hca in *. rewrite lookup_insert_eq in Hr. injection Hr as <-.
    split.
    + eexists. rewrite lookup_insert_eq. done.
    + intros q r' Hq. rewrite !lookup_insert_ne by done.
      intros Hr'. exists r'. split; [done|by left].
  - rewrite lookup_insert_ne in Hr by done. split.
    + eexists. rewrite lookup_insert_ne by done. rewrite lookup_insert_eq. done.
    + intros q r' Hq.
      destruct (decide (q = st_curproc st)) as [->|Hqc].
      * rewrite lookup_insert_eq. intros [= <-]. exists r. split; [done|by right].
      * rewrite !lookup_insert_ne by done.
        intros Hr'. exists r'. split; [done|by left].
Qed.

(** However many files the caller has open, the table of a process that
    [proc_create] hands out is empty. *)
Lemma proc_create_table_empty name st p st' :
  proc_create name st = Ok (p, st') → p ≠ NULL →
  ∃ r, st_procs st' !! p = Some r ∧ ∀ fd, slot (p_files r) fd = NULL.
Proof.
  intros Hrun Hp.
  apply proc_create_inv in Hrun as [[? _]|(_ & _ & (rp & Hrp & _ & _ & Hfiles) & _)];
    [done|].
  exists rp. split; [done|]. intros fd. unfold slot. rewrite Hfiles.
  destruct (replicate NFILES NULL !! fd) as [f|] eqn:Hf; [|done].
  by apply lookup_replicate in Hf as [-> _].
Qed.

End Create.

(** ** The state of a process *)

Section ProcState.
Context `{Config}.

Lemma state_kept_refl st : state_kept st st.
Proof. intros q r' Hq. by exists r'. Qed.

Lemma state_kept_trans st1 st2 st3 :
  state_kept st1 st2 → state_kept st2 st3 → state_kept st1 st3.
Proof.
  intros H12 H23 q r3 Hq. destruct (H23 q r3 Hq) as (r2 & Hr2 & E23).
  destruct (H12 q r2 Hr2) as (r1 & Hr1 & E12). exists r1. split; [done|congruence].
Qed.

Lemma state_kept_procs st st' : st_procs st' = st_procs st → state_kept st st'.
Proof. intros Heq q r' Hq. rewrite Heq in Hq. by exists r'. Qed.

Lemma fs_step_state_kept proc st st' : fs_step proc st st' → state_kept st st'.
Proof.
  intros (r & r' & fs & vs & Hr & Hrel & _ & _ & ->) q rq. simpl.
  destruct (decide (q = proc)) as [->|Hne].
  - rewrite lookup_insert_eq. intros [= <-]. exists r. split; [done|].
    by destruct Hrel as (_&_&_&_&_&_&?&_).
  - rewrite lookup_insert_ne by done. intros Hq. by exists rq.
Qed.

Lemma adopted_state_kept i l st st' : adopted i l st st' → state_kept st st'.
Proof.
  intros (_ & _ & Hnone & Hsome) q r' Hq.
  destruct (st_procs st !! q) as [r|] eqn:Hr.
  - destruct (Hsome q r Hr) as (r'' & Hr'' & Hself & _).
    exists r. split; [done|]. assert (r'' = r') as -> by congruence.
    by destruct Hself as (_&_&_&_&?&_).
  - rewrite (Hnone q Hr) in Hq. done.
Qed.

Lemma reparent_inv c st st' :
  reparent c st = Ok st' → adopted (st_initproc st) [c] st st'.
Proof.
  intros Hrun.
  assert (∃ ri rc, st_procs st !! st_initproc st = Some ri ∧
                   st_procs st !! c = Some rc) as (ri & rc & Hri & Hrc).
  { unfold reparent, modify, deref, unlink_child in Hrun. simpl in Hrun.
    rewrite lookup_fmap in Hrun.
    destruct (st_procs st !! st_initproc st) as [ri|] eqn:Hri; [|done].
    simpl in Hrun. exists ri.
    destruct (decide (c = st_initproc st)) as [->|Hne]; [by exists ri|].
    rewrite lookup_insert_ne, lookup_fmap in Hrun by done.
    destruct (st_procs st !! c) as [rc|]; [|done]. by exists rc. }
  destruct (reparent_adopts _ c st ri rc eq_refl Hri Hrc) as (st'' & Hrun' & Had).
  congruence.
Qed.

Lemma reparent_all_inv l : ∀ st st',
  for_each reparent l st = Ok st' → adopted (st_initproc st) l st st'.
Proof.
  induction l as [|c l IH]; intros st st'; simpl.
  - intros [= <-]. apply adopted_nil.
  - destruct (reparent c st) as [st1|] eqn:H1; [|done]. simpl.
    apply reparent_inv in H1. intros H2%IH.
    destruct H1 as (Hi1 & H1'). rewrite Hi1 in H2.
    eapply adopted_cons; [|done]. by split.
Qed.

Lemma cleanup_children_kept st st' :
  cleanup_children st = Ok st' → state_kept st st'.
Proof.
  unfold cleanup_children, deref.
  destruct (st_procs st !! st_curproc st) as [cur|]; [|done]. simpl.
  case_decide.
  - intros [= <-]. by apply state_kept_procs.
  - intros Had%reparent_all_inv. by eapply adopted_state_kept.
Qed.

(** [proc_cleanup] makes the current process DEAD with the given status
    and changes the state of no other process. *)
Lemma proc_cleanup_kept status st st' :
  proc_cleanup status st = Ok st' →
  exit_kept st st' ∧ st_curproc st' = st_curproc st ∧
  ∃ cur', st_procs st' !! st_curproc st = Some cur' ∧
    p_state cur' = PROC_DEAD ∧ p_status cur' = status.
Proof.
  unfold proc_cleanup.
  destruct (cleanup_mark_dead status st) as [st1|] eqn:H1; [|done]. simpl.
  apply modify_inv in H1 as (cur & Hcur & ->).
  set (st1 := set_procs _ st).
  assert (st_procs st1 !! st_curproc st1 = Some (with_exit status cur)) as Hcur1.
  { simpl. apply lookup_insert_eq. }
  destruct (cleanup_release st1) as [st2|] eqn:H2; [|done]. simpl.
  apply (cleanup_release_step _ _ _ Hcur1) in H2.
  intros H3.
  assert (st_curproc st' = st_curproc st2) as Hc3.
  { unfold cleanup_children, deref in H3.
    destruct (st_procs st2 !! st_curproc st2); [|done]. simpl in H3.
    case_decide; [by injection H3 as <-|].
    by apply reparent_all_inv in H3 as (_ & ? & _). }
  pose proof (fs_step_curproc _ _ _ H2) as Hc2. simpl in Hc2.
  assert (∃ r2, st_procs st2 !! st_curproc st = Some r2 ∧
                p_state r2 = PROC_DEAD ∧ p_status r2 = status) as (r2 & Hr2 & Hd2 & Hs2).
  { destruct H2 as (r1 & r2 & fs & vs & Hr1 & Hrel & _ & _ & ->).
    simpl in *. rewrite lookup_insert_eq in Hr1. injection Hr1 as <-.
    exists r2. rewrite lookup_insert_eq. split; [done|].
    by destruct Hrel as (_&_&_&_&_&?&?&_). }
  assert (state_kept st1 st') as Hkept.
  { eapply state_kept_trans; [by eapply fs_step_state_kept|].
    by apply cleanup_children_kept. }
  split; [|split; [congruence|]].
  - intros q r' Hq. destruct (Hkept q r' Hq) as (r1 & Hr1 & E).
    simpl in Hr1. destruct (decide (q = st_curproc st)) as [->|Hne].
    + rewrite lookup_insert_eq in Hr1. injection Hr1 as <-.
      exists cur. split; [done|]. right. split; [done|]. by rewrite E.
    + rewrite lookup_insert_ne in Hr1 by done. exists r1. split; [done|by left].
  - unfold cleanup_children, deref in H3. rewrite Hc2, Hr2 in H3. simpl in H3.
    case_decide.
    + injection H3 as <-. by exists r2.
    + apply reparent_all_inv in H3 as (_ & _ & _ & Hsome).
      destruct (Hsome _ r2 Hr2) as (r3 & Hr3 & Hself & _).
      exists r3. split; [done|].
      destruct Hself as (_&_&_&?&?&_). split; congruence.
Qed.




Lemma reap_kept c status st st' : reap c status st = Ok st' → state_kept st st'.
Proof.
  unfold reap, deref, store_int.
  destruct (st_procs st !! c) as [r|]; [|done]. simpl.
  destruct (st_ints st !! status); [|done]. simpl.
  intros (r0 & _ & Hp & _)%proc_destroy_inv q r' Hq.
  rewrite Hp in Hq. apply lookup_delete_Some in Hq as [_ Hq].
  simpl in Hq. rewrite lookup_fmap in Hq.
  destruct (st_procs st !! q) as [rq|]; [|done]. injection Hq as <-.
  by exists rq.
Qed.

Lemma returning_kept ret r st ret' st' :
  (∀ s, r = Ok s → state_kept st s) →
  returning ret r = Returned ret' st' → state_kept st st'.
Proof. destruct r; [|done]. simpl. intros Hk [= _ <-]. by apply Hk. Qed.

Lemma wait_child_kept c pid status st :
  (∀ ret st', wait_child c pid status st = Returned ret st' → state_kept st st') ∧
  (∀ pc st', wait_child c pid status st = Sleeping pc st' → st' = st).
Proof.
  unfold wait_child. destruct (deref st c) as [r|]; [|done].
  case_decide; split; try done.
  - by intros pc st' [= _ <-].
  - intros ret st'. apply returning_kept. intros s. apply reap_kept.
  - intros pc st'. by destruct (reap c status st).
Qed.

Lemma wait_find_kept l pid status st :
  (∀ ret st', wait_find l pid status st = Returned ret st' → state_kept st st') ∧
  (∀ pc st', wait_find l pid status st = Sleeping pc st' → st' = st).
Proof.
  induction l as [|c l IH]; simpl.
  - split; [|done]. intros ret st' [= _ <-]. apply state_kept_refl.
  - destruct (deref st c) as [r|]; [|done].
    case_decide; [apply wait_child_kept|apply IH].
Qed.

Lemma wait_scan_kept l status st :
  (∀ ret st', wait_scan l status st = Returned ret st' → state_kept st st') ∧
  (∀ pc st', wait_scan l status st = Sleeping pc st' → st' = st).
Proof.
  induction l as [|c l IH]; simpl.
  - split; [done|]. by intros pc st' [= _ <-].
  - destruct (deref st c) as [r|]; [|done].
    case_decide; [|apply IH]. split.
    + intros ret st'. apply returning_kept. intros s. apply reap_kept.
    + intros pc st'. by destruct (reap c status st).
Qed.

Lemma wait_any_kept status st :
  (∀ ret st', wait_any status st = Returned ret st' → state_kept st st') ∧
  (∀ pc st', wait_any status st = Sleeping pc st' → st' = st).
Proof.
  unfold wait_any. destruct (deref st (st_curproc st)); [|done].
  apply wait_scan_kept.
Qed.

Lemma do_waitpid_kept pid status options st :
  (∀ ret st', do_waitpid pid status options st = Returned ret st' → state_kept st st') ∧
  (∀ pc st', do_waitpid pid status options st = Sleeping pc st' → st' = st).
Proof.
  unfold do_waitpid. case_decide.
  { split; [|done]. intros ret st' [= _ <-]. apply state_kept_refl. }
  destruct (deref st (st_curproc st)) as [cur|]; [|done].
  case_decide; [apply wait_find_kept|].
  case_decide; [|apply wait_any_kept].
  split; [|done]. intros ret st' [= _ <-]. apply state_kept_refl.
Qed.

Lemma do_waitpid_resume_kept pc pid status st :
  (∀ ret st', do_waitpid_resume pc pid status st = Returned ret st' → state_kept st st') ∧
  (∀ pc' st', do_waitpid_resume pc pid status st = Sleeping pc' st' → st' = st).
Proof. destruct pc; simpl; [apply wait_child_kept|apply wait_any_kept]. Qed.


End ProcState.

(** ** Reference accounting of exit and destruction *)

Section Accounting.
Context `{Config}.

Lemma slot_insert_null (l : list Z) fd fd' :
  slot (<[fd := NULL]> l) fd' = if decide (fd' = fd) then NULL else slot l fd'.
Proof.
  unfold slot. case_decide as Heq.
  - subst fd'. destruct (decide (fd < length l)%nat) as [Hlt|Hge].
    + by rewrite list_lookup_insert_eq.
    + rewrite list_insert_ge by lia. by rewrite lookup_ge_None_2 by lia.
  - by rewrite list_lookup_insert_ne.
Qed.

Lemma occupancy_ext l l' fds f :
  (∀ fd, fd ∈ fds → slot l' fd = slot l fd) →
  occupancy l' fds f = occupancy l fds f.
Proof.
  induction fds as [|fd fds IH]; intros Hsame; simpl; [done|].
  rewrite Hsame by left. rewrite IH; [done|]. intros x Hx. apply Hsame. by right.
Qed.

(** One turn of a release loop: an empty slot is skipped; an occupied
    one is emptied and its file loses one reference. *)
Lemma release_fd_effect proc fd st st' r :
  st_procs st !! proc = Some r → release_fd proc fd st = Ok st' →
  (slot (p_files r) fd = NULL ∧ st' = st) ∨
  (slot (p_files r) fd ≠ NULL ∧
   ∃ o, st_files st !! slot (p_files r) fd = Some o ∧
     st' = set_files (insert (slot (p_files r) fd)
                        (mk_file (f_pos o) (f_mode o) (f_refcount o - 1) (f_vnode o)))
             (set_procs (insert proc (with_files (<[fd := NULL]> (p_files r)) r)) st)).
Proof.
  intros Hr. unfold release_fd, fput, modify, deref. rewrite Hr. simpl.
  case_decide as Hocc.
  - destruct (st_files st !! slot (p_files r) fd) as [o|] eqn:Ho; [|done].
    intros [= <-]. right. split; [done|]. by exists o.
  - intros [= <-]. left. by split.
Qed.

(** The release loop over the slots [k, k + n): afterwards these slots
    are empty, the others are as before, and every file has lost one
    reference for each of these slots that held it. *)
Lemma release_fds_effect proc n : ∀ k st st' r,
  st_procs st !! proc = Some r →
  for_each (release_fd proc) (seq k n) st = Ok st' →
  ∃ r', st_procs st' !! proc = Some r' ∧ p_cwd r' = p_cwd r ∧
    st_vnodes st' = st_vnodes st ∧
    (∀ fd, slot (p_files r') fd
           = if decide (k ≤ fd < k + n)%nat then NULL else slot (p_files r) fd) ∧
    (∀ f o, f ≠ NULL → st_files st !! f = Some o →
       ∃ o', st_files st' !! f = Some o' ∧
         f_refcount o' = f_refcount o - occupancy (p_files r) (seq k n) f).
Proof.
  induction n as [|n IH]; intros k st st' r Hr; simpl.
  - intros [= <-]. exists r. split; [done|]. split; [done|]. split; [done|].
    split.
    + intros fd. rewrite decide_False by lia. done.
    + intros f o _ Ho. exists o. split; [done|lia].
  - destruct (release_fd proc k st) as [st1|] eqn:H1; [|done]. simpl.
    intros Hrest.
    destruct (release_fd_effect _ _ _ _ _ Hr H1) as [[Hempty ->]|(Hocc & o1 & Ho1 & ->)].
    + destruct (IH (S k) st st' r Hr Hrest) as (r' & Hr' & Hcwd & Hvn & Hslots & Hrefs).
      exists r'. split; [done|]. split; [done|]. split; [done|]. split.
      * intros fd. rewrite Hslots.
        destruct (decide (fd = k)) as [->|Hne].
        -- rewrite decide_False by lia. rewrite decide_True by lia. done.
        -- repeat case_decide; try done; lia.
      * intros f o Hf Ho. destruct (Hrefs f o Hf Ho) as (o' & Ho' & Hcount).
        exists o'. split; [done|]. rewrite Hcount.
        rewrite decide_False by congruence. lia.
    + set (r1 := with_files (<[k := NULL]> (p_files r)) r).
      destruct (IH (S k) _ st' r1 (lookup_insert_eq _ _ _) Hrest)
        as (r' & Hr' & Hcwd & Hvn & Hslots & Hrefs).
      exists r'. split; [done|]. split; [done|]. split; [done|]. split.
      * intros fd. rewrite Hslots. simpl. rewrite slot_insert_null.
        repeat case_decide; try done; lia.
      * intros f o Hf Ho. simpl in Hrefs.
        assert (occupancy (<[k:=NULL]> (p_files r)) (seq (S k) n) f
                = occupancy (p_files r) (seq (S k) n) f) as Hocc'.
        { apply occupancy_ext. intros fd Hfd. rewrite slot_insert_null.
          apply elem_of_seq in Hfd. rewrite decide_False by lia. done. }
        destruct (decide (slot (p_files r) k = f)) as [Heq|Hne].
        -- subst f. rewrite Ho in Ho1. injection Ho1 as <-.
           destruct (Hrefs (slot (p_files r) k) _ Hf (lookup_insert_eq _ _ _))
             as (o' & Ho' & Hcount).
           exists o'. split; [done|]. rewrite Hcount, Hocc'. simpl. lia.
        -- destruct (Hrefs f o Hf) as (o' & Ho' & Hcount).
           { by rewrite lookup_insert_ne. }
           exists o'. split; [done|]. rewrite Hcount, Hocc'. lia.
Qed.

Lemma release_cwd_effect proc st st' r :
  st_procs st !! proc = Some r → release_cwd proc st = Ok st' →
  st_files st' = st_files st ∧
  ∃ r', st_procs st' !! proc = Some r' ∧ p_cwd r' = NULL ∧ p_files r' = p_files r ∧
    ∀ v n, st_vnodes st !! v = Some n →
      st_vnodes st' !! v
      = Some (if decide (v = p_cwd r ∧ v ≠ NULL) then n - 1 else n).
Proof.
  intros Hr. unfold release_cwd, vput_cwd, modify, deref. rewrite Hr. simpl.
  case_decide as Hocc.
  - simpl. destruct (st_vnodes st !! p_cwd r) as [k|] eqn:Hk; [|done].
    intros [= <-]. split; [done|]. eexists. simpl. rewrite lookup_insert_eq.
    split; [done|]. split; [done|]. split; [done|].
    intros v n Hv. destruct (decide (v = p_cwd r)) as [->|Hne].
    + rewrite lookup_insert_eq. rewrite decide_True by done. congruence.
    + rewrite lookup_insert_ne by done. rewrite decide_False by tauto. done.
  - intros [= <-]. split; [done|]. exists r. split; [done|].
    split; [done|]. split; [done|].
    intros v n Hv. rewrite decide_False; [done|].
    intros [-> Hnn]. by apply Hnn.
Qed.

Lemma reparent_fs c st st' :
  reparent c st = Ok st' →
  st_files st' = st_files st ∧ st_vnodes st' = st_vnodes st.
Proof.
  unfold reparent.
  destruct (modify (st_initproc _) _ _) as [st1|] eqn:H1; [|done]. simpl.
  apply modify_inv in H1 as (r1 & _ & ->).
  intros (r2 & _ & ->)%modify_inv. done.
Qed.

Lemma cleanup_children_fs st st' :
  cleanup_children st = Ok st' →
  st_files st' = st_files st ∧ st_vnodes st' = st_vnodes st.
Proof.
  unfold cleanup_children, deref.
  destruct (st_procs st !! st_curproc st) as [cur|]; [|done]. simpl.
  case_decide; [by intros [= <-]|].
  generalize (p_children cur). intros l. revert st.
  induction l as [|c l IH]; intros st; simpl; [by intros [= <-]|].
  destruct (reparent c st) as [st1|] eqn:H1; [|done]. simpl.
  apply reparent_fs in H1 as [Hf1 Hv1].
  intros [Hf Hv]%IH. split; congruence.
Qed.

(** What the exit of a process does to reference counts: every file
    loses exactly one reference for each slot of the table that holds
    it, the working directory loses exactly one, and the process is
    left with an empty table and no working directory. *)
Lemma proc_cleanup_releases status st st' cur :
  st_procs st !! st_curproc st = Some cur →
  proc_cleanup status st = Ok st' →
  (∀ f o, f ≠ NULL → st_files st !! f = Some o →
     ∃ o', st_files st' !! f = Some o' ∧
       f_refcount o' = f_refcount o - occupancy (p_files cur) (seq 0 NFILES) f) ∧
  (∀ v n, st_vnodes st !! v = Some n →
     st_vnodes st' !! v
     = Some (if decide (v = p_cwd cur ∧ v ≠ NULL) then n - 1 else n)) ∧
  (∃ cur', st_procs st' !! st_curproc st = Some cur' ∧ p_cwd cur' = NULL ∧
     ∀ fd, (fd < NFILES)%nat → slot (p_files cur') fd = NULL).
Proof.
  intros Hcur. unfold proc_cleanup.
  rewrite (cleanup_mark_dead_eq _ _ cur Hcur). simpl.
  set (st1 := set_procs _ st). unfold cleanup_release.
  destruct (for_each _ _ st1) as [st2|] eqn:H2; [|done]. simpl.
  destruct (release_fds_effect _ _ _ _ _ (with_exit status cur)
              (lookup_insert_eq _ _ _) H2)
    as (r2 & Hr2 & Hcwd2 & Hvn2 & Hslots2 & Hrefs2).
  assert (st_curproc st2 = st_curproc st) as Hc2.
  { apply (release_fds_step _ _ _ _ (with_exit status cur)) in H2;
      [|apply lookup_insert_eq]. by apply fs_step_curproc in H2. }
  rewrite Hc2.
  destruct (release_cwd (st_curproc st) st2) as [st3|] eqn:H3; [|done]. simpl.
  destruct (release_cwd_effect _ _ _ _ Hr2 H3) as (Hf3 & r3 & Hr3 & Hcwd3 & Hfiles3 & Hvn3).
  assert (st_curproc st3 = st_curproc st) as Hc3.
  { apply release_cwd_step, fs_step_curproc in H3. congruence. }
  intros H4. pose proof (cleanup_children_fs _ _ H4) as [Hf4 Hv4].
  change (st_curproc st1) with (st_curproc st) in *.
  split; [|split].
  - intros f o Hf Ho. rewrite Hf4, Hf3. by apply Hrefs2.
  - intros v n Hv. rewrite Hv4. rewrite Hcwd2 in Hvn3. simpl in Hvn3.
    apply Hvn3. by rewrite Hvn2.
  - unfold cleanup_children, deref in H4. rewrite Hc3, Hr3 in H4. simpl in H4.
    assert (∀ fd, (fd < NFILES)%nat → slot (p_files r3) fd = NULL) as Hempty.
    { intros fd Hfd. rewrite Hfiles3, Hslots2. rewrite decide_True by lia. done. }
    case_decide.
    + injection H4 as <-. by exists r3.
    + apply reparent_all_inv in H4 as (_ & _ & _ & Hsome).
      destruct (Hsome _ r3 Hr3) as (r4 & Hr4 & Hself & _).
      destruct Hself as (_&_&_&_&_&_&E1&E2).
      exists r4. split; [done|]. split; [congruence|]. by rewrite E2.
Qed.

Lemma release_fd_empty proc fd st r :
  st_procs st !! proc = Some r → slot (p_files r) fd = NULL →
  release_fd proc fd st = Ok st.
Proof.
  intros Hr Hempty. unfold release_fd, deref. rewrite Hr. simpl.
  rewrite decide_False; [done|]. rewrite Hempty. tauto.
Qed.

Lemma release_fds_empty proc fds st r :
  st_procs st !! proc = Some r →
  (∀ fd, fd ∈ fds → slot (p_files r) fd = NULL) →
  for_each (release_fd proc) fds st = Ok st.
Proof.
  intros Hr. induction fds as [|fd fds IH]; intros Hempty; simpl; [done|].
  rewrite (release_fd_empty _ _ _ r) by (try apply Hempty; done || left).
  simpl. apply IH. intros x Hx. apply Hempty. by right.
Qed.

(** [proc_destroy] of a process that has been through cleanup releases
    nothing more. *)
Lemma proc_destroy_releases_nothing proc st r :
  st_procs st !! proc = Some r →
  (∀ fd, (fd < NFILES)%nat → slot (p_files r) fd = NULL) →
  p_cwd r = NULL → p_pml4 r ≠ NULL →
  ∃ st', proc_destroy proc st = Ok st' ∧
    st_files st' = st_files st ∧ st_vnodes st' = st_vnodes st.
Proof.
  intros Hr Hempty Hcwd Hpml4. unfold proc_destroy, deref. simpl. rewrite Hr.
  simpl. rewrite emit_all. set (st2 := set_trace _ _).
  assert (st_procs st2 !! proc = Some r) as Hr2 by done.
  rewrite (release_fds_empty _ _ _ r Hr2).
  2: { intros fd Hfd. apply Hempty. apply elem_of_seq in Hfd. lia. }
  simpl. unfold release_cwd, deref. rewrite ?Hr2, ?Hr. simpl.
  rewrite decide_False by (rewrite Hcwd; tauto). simpl. rewrite ?Hr2, ?Hr. simpl.
  rewrite decide_False by done. eexists. split; [done|]. done.
Qed.

End Accounting.

(** ** The theorems at concrete states *)

Section Concrete.
#[local] Existing Instance small_config.

Lemma st_two_registry_ok : registry_ok st_two.
Proof.
  unfold registry_ok, links_ok. simpl.
  repeat (constructor; [eexists; vm_compute; reflexivity|]). constructor.
Qed.

Lemma st_family_registry_ok : registry_ok st_family.
Proof.
  unfold registry_ok, links_ok. simpl.
  repeat (constructor; [eexists; vm_compute; reflexivity|]). constructor.
Qed.



Example getid_two : _proc_getid st_two = Ok (3, set_next_pid 4 st_two).
Proof. reflexivity. Qed.

Example getid_exhausted : @_proc_getid tiny_config st_two = Ok (-1, st_two).
Proof. reflexivity. Qed.

Lemma proc_getid_spec_witness :
  (1 ≤ st_next_pid st_two < PROC_MAX_COUNT ∧ registry_ok st_two) ∧
  ∃ pid st', _proc_getid st_two = Ok (pid, st') ∧
    ((1 ≤ pid < PROC_MAX_COUNT ∧ ¬ pid_registered st_two pid) ∨ pid = -1) ∧
    (pid = -1 → ∀ q, 1 ≤ q < PROC_MAX_COUNT → pid_registered st_two q) ∧
    st_procs st' = st_procs st_two ∧ st_proc_list st' = st_proc_list st_two ∧
    1 ≤ st_next_pid st' < PROC_MAX_COUNT.
Proof.
  assert (1 ≤ st_next_pid st_two < PROC_MAX_COUNT) as H1 by (simpl; lia).
  split; [split; [exact H1|exact st_two_registry_ok]|].
  exact (proc_getid_spec st_two H1 st_two_registry_ok).
Defined.

Lemma do_waitpid_enotsup_witness :
  (-2 = 0 ∨ -2 < -1 ∨ 0 ≠ 0) ∧
  do_waitpid_run [sibling_wakeup] (-2) NULL 0 st_family
  = Returned (- ENOTSUP) st_family.
Proof.
  assert (-2 = 0 ∨ -2 < -1 ∨ 0 ≠ 0) as Hbad by (right; left; lia).
  split; [exact Hbad|].
  exact (do_waitpid_enotsup [sibling_wakeup] (-2) NULL 0 st_family Hbad).
Defined.

Example waitpid_tests :
  do_waitpid 0 NULL 0 st_family = Returned (-95) st_family ∧
  do_waitpid 0 NULL 1 st_family = Returned (-95) st_family ∧
  do_waitpid (-2) NULL 0 st_family = Returned (-95) st_family.
Proof. by repeat split. Qed.




Lemma proc_kill_all_spec_witness :
  (st_procs st_shell !! st_curproc st_shell = Some sh_proc ∧ registry_ok st_shell) ∧
  ∃ cancels,
    proc_kill_all st_shell
    = Ok (set_trace (λ t, t ++ cancels ++ [EvKthreadExit (-1)]) st_shell) ∧
    ∀ e, e ∈ cancels ↔
      ∃ p r thr, e = EvKthreadCancel thr (-1) ∧ p ∈ st_proc_list st_shell ∧
        st_procs st_shell !! p = Some r ∧ thr ∈ p_threads r ∧
        p_pid r ≠ p_pid sh_proc ∧ p_pid r ≠ PID_IDLE ∧ p_pid r ≠ PID_INIT.
Proof.
  split; [split; [reflexivity|exact st_family_registry_ok]|].
  exact (proc_kill_all_spec st_shell sh_proc eq_refl st_family_registry_ok).
Defined.

Example kill_all_by_shell :
  st_trace <$> proc_kill_all st_shell
  = Ok [EvKthreadCancel 640 (-1); EvKthreadCancel 650 (-1); EvKthreadExit (-1)].
Proof. reflexivity. Qed.


Example wait_for_shell_sleeps :
  do_waitpid_run [sibling_wakeup] 2 900 0 st_family
  = Sleeping (PcChild 300) (sibling_wakeup st_family).
Proof. reflexivity. Qed.


Example wait_for_zombie :
  ∃ st', do_waitpid 3 900 0 st_family = Returned 3 st' ∧
    st_ints st' !! 900 = Some 7 ∧ st_procs st' !! 400 = None.
Proof. eexists. split; [vm_compute; reflexivity|]. by split. Qed.

Example wait_any_reaps_zombie :
  ∃ st', do_waitpid (-1) 900 0 st_family = Returned 3 st' ∧
    st_ints st' !! 900 = Some 7 ∧ st_procs st' !! 400 = None ∧
    (p_children <$> st_procs st' !! 200) = Some [300].
Proof.
  eexists. split; [vm_compute; reflexivity|].
  repeat split; vm_compute; reflexivity.
Qed.

Example wait_any_null_status :
  do_waitpid (-1) NULL 0 st_family = Faulted (BadAccess NULL).
Proof. reflexivity. Qed.


Lemma sh_table_ok : table_ok st_shell sh_proc.
Proof.
  split.
  - constructor; [right; apply elem_of_dom; eexists; vm_compute; reflexivity|].
    constructor; [by left|constructor].
  - right. apply elem_of_dom. eexists. vm_compute. reflexivity.
Qed.

Lemma proc_cleanup_reparents_witness :
  (st_procs st_shell !! st_curproc st_shell = Some sh_proc ∧
   p_pid sh_proc ≠ PID_INIT ∧ st_initproc st_shell ≠ st_curproc st_shell ∧
   st_procs st_shell !! st_initproc st_shell = Some init_proc ∧
   links_ok st_shell (p_children sh_proc) ∧ table_ok st_shell sh_proc) ∧
  ∃ st', proc_cleanup 5 st_shell = Ok st' ∧
    st_initproc st' = 200 ∧
    (∀ c, c ∈ [500] →
       ∃ rc ri', st_procs st' !! c = Some rc ∧ p_pproc rc = 200 ∧
         st_procs st' !! 200 = Some ri' ∧ c ∈ p_children ri') ∧
    (∃ cur', st_procs st' !! 300 = Some cur' ∧ p_children cur' = []).
Proof.
  assert (p_pid sh_proc ≠ PID_INIT) as Hpid by (simpl; lia).
  assert (st_initproc st_shell ≠ st_curproc st_shell) as Hne by (simpl; lia).
  assert (links_ok st_shell (p_children sh_proc)) as Hl.
  { constructor; [eexists; vm_compute; reflexivity|constructor]. }
  split; [by repeat split; try apply sh_table_ok|].
  exact (proc_cleanup_reparents 5 st_shell sh_proc init_proc eq_refl Hpid Hne
           eq_refl Hl sh_table_ok).
Defined.

Example shell_cleanup :
  ∃ st', proc_cleanup 5 st_shell = Ok st' ∧
    (p_children <$> st_procs st' !! 200) = Some [300; 400; 500] ∧
    (p_pproc <$> st_procs st' !! 500) = Some 200 ∧
    (p_children <$> st_procs st' !! 300) = Some [] ∧
    (p_state <$> st_procs st' !! 300) = Some PROC_DEAD.
Proof.
  eexists. split; [vm_compute; reflexivity|].
  repeat split; vm_compute; reflexivity.
Qed.



(** C1 (a defect of the code). The shell has a file open in slot 0.
    When it calls [proc_create], [fref] takes the new reference, but
    [memcpy] then copies the file object to the address found in the
    zeroed slot of the new table, which is NULL, instead of storing the
    handle in that slot.  Where address 0 is not mapped the call faults
    there; where it is mapped the call succeeds, the reference count of
    the file has gone up by one, and slot 0 of the new process is
    empty although slot 0 of the caller is not. *)
Theorem proc_create_drops_handle :
  proc_create "child" st_shell = Err (BadAccess NULL) ∧
  ∃ st' child,
    proc_create "child" st_shell_lowmem = Ok (600, st') ∧
    (p_files <$> st_procs st_shell_lowmem !! 300) = Some [700; NULL] ∧
    st_procs st' !! 600 = Some child ∧ p_files child = [NULL; NULL] ∧
    (f_refcount <$> st_files st_shell_lowmem !! 700) = Some 2 ∧
    (f_refcount <$> st_files st' !! 700) = Some 3.
Proof.
  split; [vm_compute; reflexivity|].
  eexists _, _. split; [vm_compute; reflexivity|].
  split; [vm_compute; reflexivity|]. split; [vm_compute; reflexivity|].
  split; [reflexivity|]. split; vm_compute; reflexivity.
Qed.

(** C7 (a defect of the code, the one of C1). The shell, with a file
    open in slot 0 and a working directory, creates a child; the child
    exits at once; the shell waits for it and destroys it.  Where
    address 0 is not mapped the create faults.  Where it is mapped the
    three calls succeed and the working directory is back at its
    reference count, but the file is not: [proc_create] took a
    reference that no slot of the child holds, so neither cleanup nor
    destroy gives it back. *)
Theorem create_exit_wait_leaks_file :
  proc_create "child" st_shell = Err (BadAccess NULL) ∧
  ∃ s1 s2 s3,
    proc_create "child" st_shell_lowmem = Ok (600, s1) ∧
    proc_thread_exiting 0 (set_curthr 660 (set_curproc 600 s1)) = Ok s2 ∧
    do_waitpid 5 900 0 (set_curthr 630 (set_curproc 300 s2)) = Returned 5 s3 ∧
    st_procs s3 !! 600 = None ∧
    (f_refcount <$> st_files st_shell_lowmem !! 700) = Some 2 ∧
    (f_refcount <$> st_files s3 !! 700) = Some 3 ∧
    st_vnodes st_shell_lowmem !! 800 = Some 3 ∧
    st_vnodes s3 !! 800 = Some 3.
Proof.
  split; [vm_compute; reflexivity|].
  eexists _, _, _. split; [vm_compute; reflexivity|].
  split; [vm_compute; reflexivity|]. split; [vm_compute; reflexivity|].
  repeat split; vm_compute; reflexivity.
Qed.

End Concrete.

(** * Further properties *)

(** ** Lookup by pid *)

Section Lookup.
Context `{Config}.

Lemma lookup_walk_absent st l pid :
links_ok st l → ¬ pid_among st l pid → lookup_walk st l pid = Ok NULL.
Proof.
induction 1 as [|p l [r Hr] _ IH]; intros Hno; simpl; [done|].
unfold deref. rewrite Hr. simpl.
destruct (decide (p_pid r = pid)) as [Heq|Hne].
- destruct Hno. exists p, r. split; [left|done].
- apply IH. intros (q & rq & Hin & Hq & Hpid). apply Hno.
  exists q, rq. split; [by right|done].
Qed.

Lemma lookup_walk_present st l pid :
links_ok st l → pid_among st l pid →
∃ p r, lookup_walk st l pid = Ok p ∧ p ∈ l ∧
  st_procs st !! p = Some r ∧ p_pid r = pid.
Proof.
induction 1 as [|c l [rc Hrc] _ IH]; intros (q & rq & Hin & Hq & Hpid).
{ by apply elem_of_nil in Hin. }
simpl. unfold deref. rewrite Hrc. simpl.
destruct (decide (p_pid rc = pid)) as [Heq|Hne].
- exists c, rc. split; [done|]. split; [left|done].
- apply elem_of_cons in Hin as [->|Hin]; [congruence|].
  destruct IH as (p & r & Hrun & Hp & Hr & Hrp); [by exists q, rq|].
  exists p, r. split; [done|]. split; [by right|done].
Qed.

(** X1. With every registered link an allocated descriptor, [proc_lookup]
  answers the idle process for pid 0 whatever the registry holds, NULL
  for any other pid that no registered process has, and otherwise a
  registered descriptor that has the pid. *)
Theorem proc_lookup_spec (idleproc pid : Z) (st : kstate) :
registry_ok st →
(pid = 0 → proc_lookup idleproc pid st = Ok idleproc) ∧
(pid ≠ 0 → ¬ pid_registered st pid → proc_lookup idleproc pid st = Ok NULL) ∧
(pid ≠ 0 → pid_registered st pid →
 ∃ p r, proc_lookup idleproc pid st = Ok p ∧ p ∈ st_proc_list st ∧
   st_procs st !! p = Some r ∧ p_pid r = pid).
Proof.
intros Hreg. unfold proc_lookup. split; [|split].
- intros ->. by rewrite decide_True.
- intros Hne Hno. rewrite decide_False by done. by apply lookup_walk_absent.
- intros Hne Hyes. rewrite decide_False by done. by apply lookup_walk_present.
Qed.

End Lookup.

(** ** The pid the allocator picks *)

Section GetIdOrder.
Context `{Config}.

Lemma getid_scan_first st fuel : ∀ pid p,
registry_ok st →
(∀ q, visited (st_next_pid st) pid q → pid_registered st q) →
1 ≤ st_next_pid st < PROC_MAX_COUNT →
1 ≤ pid < PROC_MAX_COUNT →
getid_scan fuel st pid = Ok (Some p) →
∀ q, visited (st_next_pid st) p q → pid_registered st q.
Proof.
induction fuel as [|fuel IH]; intros pid p Hreg Hvis Hn Hpid; simpl; [done|].
destruct (pid_on_list_spec st (st_proc_list st) pid Hreg) as (b & -> & Hb).
simpl. destruct b.
- assert (pid_registered st pid) as Hused by by apply Hb.
  unfold next_id. destruct (decide (_ = st_next_pid st)) as [Hwrap|Hgo]; [done|].
  apply IH; [done| |done|case_decide; lia].
  intros q Hq. destruct (decide (q = pid)) as [->|Hne]; [done|].
  apply Hvis. unfold visited in *. case_decide; lia.
- by intros [= <-].
Qed.

(** X2. Called with the cursor in [1, PROC_MAX_COUNT), an allocator that
  returns a pid has skipped no free one: every pid between the cursor
  and the returned pid, going upwards and wrapping from
  PROC_MAX_COUNT - 1 to 1, belongs to a registered process; and the
  cursor is left just after the returned pid.  An allocator that
  returns -1 leaves the state as it was. *)
Theorem proc_getid_first_free (st : kstate) (pid : Z) (st' : kstate) :
1 ≤ st_next_pid st < PROC_MAX_COUNT →
registry_ok st →
_proc_getid st = Ok (pid, st') →
(pid = -1 ∧ st' = st) ∨
(1 ≤ pid < PROC_MAX_COUNT ∧
 (∀ q, visited (st_next_pid st) pid q → pid_registered st q) ∧
 st' = set_next_pid (next_id pid) st).
Proof.
intros Hn Hreg. unfold _proc_getid.
destruct (getid_scan_spec st (Z.to_nat PROC_MAX_COUNT) (st_next_pid st))
  as (found & Hscan & Hfound); [done|done|done| | |].
{ intros q Hq. unfold visited in Hq. lia. }
{ unfold remaining. case_decide; lia. }
rewrite Hscan. simpl. destruct found as [p|].
- destruct Hfound as [Hp _]. rewrite decide_False by lia.
  intros [= <- <-]. right. split; [done|]. split; [|done].
  apply (getid_scan_first st (Z.to_nat PROC_MAX_COUNT) (st_next_pid st) p);
    [done| |done|done|exact Hscan].
  intros q Hq. unfold visited in Hq. lia.
- intros [= <- <-]. by left.
Qed.

End GetIdOrder.

(** ** Free descriptors of the file table *)

Section EmptyFd.
Context `{Config}.
Variable EMFILE : Z.

Lemma empty_fd_loop_spec fdp cur n : ∀ fd st,
st_procs st !! st_curproc st = Some cur →
is_Some (st_ints st !! fdp) →
st_ints st !! fdp = Some (Z.of_nat fd) ∨ n = O →
∃ ret k, empty_fd_loop EMFILE n fd fdp st
         = Ok (ret, set_ints (insert fdp k) st) ∧
  ((ret = 0 ∧ ∃ i, k = Z.of_nat i ∧ (fd ≤ i < fd + n)%nat ∧
      slot (p_files cur) i = NULL ∧
      ∀ j, (fd ≤ j < i)%nat → slot (p_files cur) j ≠ NULL) ∨
   (ret = - EMFILE ∧ k = -1 ∧
      ∀ j, (fd ≤ j < fd + n)%nat → slot (p_files cur) j ≠ NULL)).
Proof.
induction n as [|n IH]; intros fd st Hcur [old Hold] Hfd; simpl.
- unfold store_int. rewrite Hold. simpl. exists (- EMFILE), (-1).
  split; [done|]. right. split; [done|]. split; [done|]. intros j Hj. lia.
- unfold deref. rewrite Hcur. simpl.
  destruct Hfd as [Hfd|?]; [|done].
  destruct (decide (slot (p_files cur) fd = NULL)) as [Hempty|Hocc].
  + exists 0, (Z.of_nat fd). split.
    { do 2 f_equal. destruct st. unfold set_ints. simpl in *.
      by rewrite insert_id. }
    left. split; [done|]. exists fd. split; [done|]. split; [lia|].
    split; [done|]. intros j Hj. lia.
  + unfold store_int. rewrite Hold. simpl.
    destruct (IH (S fd) (set_ints (insert fdp (Z.of_nat (S fd))) st))
      as (ret & k & Hrun & Hres).
    { done. } { simpl. rewrite lookup_insert_eq. by eexists. }
    { left. simpl. apply lookup_insert_eq. }
    exists ret, k. split.
    { rewrite Hrun. do 2 f_equal. unfold set_ints. simpl.
      by rewrite insert_insert_eq. }
    destruct Hres as [(-> & i & -> & Hi & Hempty & Hbefore)|(-> & -> & Hall)].
    * left. split; [done|]. exists i. split; [done|]. split; [lia|].
      split; [done|]. intros j Hj.
      destruct (decide (j = fd)) as [->|Hne]; [done|]. apply Hbefore. lia.
    * right. split; [done|]. split; [done|]. intros j Hj.
      destruct (decide (j = fd)) as [->|Hne]; [done|]. apply Hall. lia.
Qed.

(** X3. Called with [fd] pointing to an int by a process that exists,
  [get_empty_fd] changes nothing but that int.  It returns 0 and leaves
  in it the lowest descriptor below NFILES whose slot is empty, or it
  returns -EMFILE and leaves -1 in it, which happens exactly when all
  NFILES slots are occupied. *)
Theorem get_empty_fd_spec (fdp : Z) (st : kstate) (cur : proc_t) :
st_procs st !! st_curproc st = Some cur →
is_Some (st_ints st !! fdp) →
∃ ret k, get_empty_fd EMFILE fdp st = Ok (ret, set_ints (insert fdp k) st) ∧
  ((ret = 0 ∧ ∃ i, k = Z.of_nat i ∧ (i < NFILES)%nat ∧
      slot (p_files cur) i = NULL ∧
      ∀ j, (j < i)%nat → slot (p_files cur) j ≠ NULL) ∨
   (ret = - EMFILE ∧ k = -1 ∧
      ∀ j, (j < NFILES)%nat → slot (p_files cur) j ≠ NULL)).
Proof.
intros Hcur [old Hold]. unfold get_empty_fd, store_int. rewrite Hold. simpl.
destruct (empty_fd_loop_spec fdp cur NFILES 0 (set_ints (insert fdp 0) st))
  as (ret & k & Hrun & Hres).
{ done. } { simpl. rewrite lookup_insert_eq. by eexists. }
{ left. simpl. apply lookup_insert_eq. }
exists ret, k. split.
{ rewrite Hrun. do 2 f_equal. unfold set_ints. simpl. by rewrite insert_insert_eq. }
destruct Hres as [(-> & i & -> & Hi & Hempty & Hbefore)|(-> & -> & Hall)].
- left. split; [done|]. exists i. split; [done|]. split; [lia|].
  split; [done|]. intros j Hj. apply Hbefore. lia.
- right. split; [done|]. split; [done|]. intros j Hj. apply Hall. lia.
Qed.

End EmptyFd.

(** ** What [proc_create] does to the registry *)

Section CreateMore.
Context `{Config}.

Lemma pt_create_frame st pml4 st' :
pt_create st = (pml4, st') → ∃ pts, st' = set_pagetables (λ _, pts) st.
Proof.
unfold pt_create. destruct (st_pagetables st) as [|t pts] eqn:Hpts.
- intros [= <- <-]. exists []. destruct st. simpl in *. by subst.
- intros [= <- <-]. by exists pts.
Qed.

Lemma clone_cwd_frame proc st st' new :
clone_cwd proc st = Ok st' → st_procs st !! proc = Some new →
(∃ v vs, st' = set_vnodes (λ _, vs) (set_procs (insert proc (with_cwd v new)) st) ∧
   ∃ cur n, st_procs st !! st_curproc st = Some cur ∧ v = p_cwd cur ∧ v ≠ NULL ∧
     st_vnodes st !! v = Some n ∧ vs = <[v := n + 1]> (st_vnodes st)) ∨
st' = st.
Proof.
intros Hrun Hnew. unfold clone_cwd, modify, deref, vref in Hrun.
destruct (st_procs st !! st_curproc st) as [cur|] eqn:Hcur; [|done].
simpl in Hrun. case_decide.
- rewrite Hnew in Hrun. simpl in Hrun. rewrite lookup_insert_eq in Hrun.
  simpl in Hrun. destruct (st_vnodes st !! p_cwd cur) as [k|] eqn:Hk; [|done].
  injection Hrun as <-. left. exists (p_cwd cur), (<[p_cwd cur := k + 1]> (st_vnodes st)).
  split; [done|]. by exists cur, k.
- injection Hrun as <-. by right.
Qed.

Lemma proc_getid_fresh st pid st1 :
1 ≤ st_next_pid st < PROC_MAX_COUNT → registry_ok st →
_proc_getid st = Ok (pid, st1) → ¬ pid < 0 →
1 ≤ pid < PROC_MAX_COUNT ∧ ¬ pid_registered st pid.
Proof.
intros Hn Hreg Hid Hpos. unfold _proc_getid in Hid.
destruct (getid_scan_spec st (Z.to_nat PROC_MAX_COUNT) (st_next_pid st))
  as (found & Hscan & Hfound); [done|done|done| | |].
{ intros q Hq. unfold visited in Hq. lia. }
{ unfold remaining. case_decide; lia. }
rewrite Hscan in Hid. simpl in Hid. destruct found as [q|].
- case_decide; [done|]. injection Hid as <- _. done.
- injection Hid as <- _. exfalso. lia.
Qed.

Lemma proc_getid_cases st pid st1 :
1 ≤ st_next_pid st < PROC_MAX_COUNT → registry_ok st →
_proc_getid st = Ok (pid, st1) →
(pid = -1 ∧ st1 = st) ∨
(1 ≤ pid < PROC_MAX_COUNT ∧ st1 = set_next_pid (next_id pid) st).
Proof.
intros Hn Hreg Hid. unfold _proc_getid in Hid.
destruct (getid_scan_spec st (Z.to_nat PROC_MAX_COUNT) (st_next_pid st))
  as (found & Hscan & Hfound); [done|done|done| | |].
{ intros q Hq. unfold visited in Hq. lia. }
{ unfold remaining. case_decide; lia. }
rewrite Hscan in Hid. simpl in Hid. destruct found as [q|].
- case_decide; [done|]. injection Hid as <- <-. right. by destruct Hfound.
- injection Hid as <- <-. by left.
Qed.

(** The state a successful [proc_create] leaves, field by field. *)
Lemma proc_create_ok_inv name st p st' :
proc_create name st = Ok (p, st') → p ≠ NULL →
∃ pid slab rnew rcur fs vs pts,
  _proc_getid st = Ok (pid, set_next_pid (next_id pid) st) ∧ ¬ pid < 0 ∧
  st_slab st = p :: slab ∧
  p_pid rnew = pid ∧ p_pproc rnew = st_curproc st ∧
  p_state rnew = PROC_RUNNING ∧ p_status rnew = 0 ∧
  p_children rnew = [] ∧ p_threads rnew = [] ∧
  p_files rnew = replicate NFILES NULL ∧
  <[p := rnew]> (st_procs st) !! st_curproc st = Some rcur ∧
  st' = mk_kstate
          (<[st_curproc st := with_children (list_insert_tail p (p_children rcur)) rcur]>
             (<[p := rnew]> (st_procs st)))
          (st_proc_list st ++ [p]) (next_id pid)
          (if decide (pid = PID_INIT) then p else st_initproc st)
          (st_curproc st) (st_curthr st) (st_threads st) slab pts fs vs
          (st_ints st) (st_trace st).
Proof.
unfold proc_create.
destruct (_proc_getid st) as [[pid st1]|] eqn:Hid; [|done]. simpl.
assert (pid < 0 ∨ st1 = set_next_pid (next_id pid) st) as Hst1.
{ unfold _proc_getid in Hid.
  destruct (getid_scan _ _ _) as [[q|]|]; simpl in Hid; [| |done].
  - case_decide; [done|]. injection Hid as <- <-. by right.
  - injection Hid as <- <-. left. lia. }
case_decide as Hneg; [by intros [= <- <-]|].
destruct Hst1 as [? | ->]; [done|].
unfold slab_obj_alloc. simpl.
destruct (st_slab st) as [|a slab] eqn:Hslab; [by intros [= <- <-]|].
case_decide; [by intros [= <- <-]|].
destruct (pt_create _) as [pml4 st3] eqn:Hpt.
apply pt_create_frame in Hpt as [pts ->]. simpl.
set (new := fresh_proc pid name _ pml4).
destruct (for_each _ _ _) as [st5|] eqn:H5; [|done]. simpl.
apply clone_fds_frame in H5 as [fs ->].
destruct (clone_cwd a _) as [st6|] eqn:H6; [|done]. simpl.
apply (clone_cwd_frame _ _ _ new) in H6; [|simpl; apply lookup_insert_eq].
assert (∃ v vs, st6 = set_vnodes (λ _, vs)
          (set_procs (insert a (with_cwd v new))
             (set_files (λ _, fs) (set_procs (insert a new)
                (set_pagetables (λ _, pts) (set_slab (λ _, slab)
                   (set_next_pid (next_id pid) st)))))))
  as (v & vs & ->).
{ destruct H6 as [(v & vs & -> & _)| ->]; [by exists v, vs|].
  exists (p_cwd new), (st_vnodes st). unfold set_vnodes, set_procs. simpl.
  rewrite insert_insert_eq. reflexivity. }
set (st7 := if decide (pid = PID_INIT) then _ else _).
destruct (modify _ _ st7) as [st8|] eqn:H8; [|done]. simpl.
apply modify_inv in H8 as (rcur & Hrcur & ->). intros [= <- <-] _.
exists pid, slab, (with_cwd v new), rcur, fs, vs, pts.
split; [done|]. split; [done|]. split; [done|].
repeat (split; [done|]).
assert (st_curproc st7 = st_curproc st) as Hc7 by (subst st7; by case_decide).
assert (st_procs st7 = <[a := with_cwd v new]> (st_procs st)) as Hp7.
{ subst st7. case_decide; simpl; by rewrite insert_insert_eq. }
rewrite Hc7, Hp7 in Hrcur. split; [done|].
unfold set_proc_list, set_procs. rewrite Hc7, Hp7.
subst st7. case_decide; reflexivity.
Qed.

(** X4. A [proc_create] that returns a descriptor, called with the cursor
  in [1, PROC_MAX_COUNT) and every registered link allocated, took the
  descriptor from the allocator and gave it a pid of that range that no
  registered process had.  The new process is RUNNING with status 0, no
  thread and no child, and has the caller as parent; it is the last
  entry of the registry and the last child of the caller; it becomes
  [proc_initproc] exactly when its pid is PID_INIT; [curproc] is the
  caller still. *)
Theorem proc_create_registers (name : string) (st : kstate) (p : Z) (st' : kstate) :
1 ≤ st_next_pid st < PROC_MAX_COUNT →
registry_ok st →
proc_create name st = Ok (p, st') → p ≠ NULL →
∃ rnew rcur,
  (∃ slab, st_slab st = p :: slab ∧ st_slab st' = slab) ∧
  st_procs st' !! p = Some rnew ∧
  1 ≤ p_pid rnew < PROC_MAX_COUNT ∧ ¬ pid_registered st (p_pid rnew) ∧
  p_state rnew = PROC_RUNNING ∧ p_status rnew = 0 ∧ p_threads rnew = [] ∧
  p_pproc rnew = st_curproc st ∧
  (p ≠ st_curproc st → p_children rnew = []) ∧
  st_proc_list st' = st_proc_list st ++ [p] ∧
  st_procs st' !! st_curproc st = Some rcur ∧
  (∃ l, p_children rcur = l ++ [p]) ∧
  st_initproc st' = (if decide (p_pid rnew = PID_INIT) then p else st_initproc st) ∧
  st_curproc st' = st_curproc st.
Proof.
intros Hn Hreg Hrun Hp.
destruct (proc_create_ok_inv _ _ _ _ Hrun Hp)
  as (pid & slab & rnew & rcur & fs & vs & pts & Hid & Hpos & Hslab & Hpid &
      Hpar & Hst & Hstat & Hch & Hthr & _ & Hrcur & ->).
destruct (proc_getid_fresh st pid _ Hn Hreg Hid Hpos) as [Hrange Hfresh].
simpl. destruct (decide (p = st_curproc st)) as [Hpc|Hpc].
- rewrite <- Hpc in *. rewrite lookup_insert_eq in Hrcur. injection Hrcur as <-.
  exists (with_children (list_insert_tail p (p_children rnew)) rnew),
    (with_children (list_insert_tail p (p_children rnew)) rnew).
  rewrite lookup_insert_eq. simpl. rewrite Hpid.
  split; [by exists slab|]. repeat (split; [done|]).
  split; [unfold list_insert_tail; by eexists|]. done.
- exists rnew, (with_children (list_insert_tail p (p_children rcur)) rcur).
  rewrite lookup_insert_ne by done. rewrite lookup_insert_eq.
  rewrite lookup_insert_eq. rewrite Hpid.
  split; [by exists slab|]. repeat (split; [done|]).
  split; [unfold list_insert_tail; by eexists|]. done.
Qed.

(** X5. A [proc_create] that finds every pid of [1, PROC_MAX_COUNT)
  registered, or the allocator with nothing to hand out, returns NULL
  without a fault, and the only thing it may have changed is the
  cursor: no descriptor, list, file or vnode is touched. *)
Theorem proc_create_fails_clean (name : string) (st : kstate) :
1 ≤ st_next_pid st < PROC_MAX_COUNT →
registry_ok st →
(∀ q, 1 ≤ q < PROC_MAX_COUNT → pid_registered st q) ∨ st_slab st = [] →
∃ n, proc_create name st = Ok (NULL, set_next_pid n st) ∧
  ((∀ q, 1 ≤ q < PROC_MAX_COUNT → pid_registered st q) → n = st_next_pid st).
Proof.
intros Hn Hreg Hwhy. unfold proc_create, _proc_getid.
destruct (getid_scan_spec st (Z.to_nat PROC_MAX_COUNT) (st_next_pid st))
  as (found & -> & Hfound); [done|done|done| | |].
{ intros q Hq. unfold visited in Hq. lia. }
{ unfold remaining. case_decide; lia. }
simpl. destruct found as [pid|].
- destruct Hfound as [Hpid Hfree].
  destruct Hwhy as [Hall|Hslab]; [destruct Hfree; by apply Hall|].
  exists (next_id pid). split; [|intros Hall; destruct Hfree; by apply Hall].
  rewrite decide_False by lia. simpl. rewrite decide_False by lia.
  unfold slab_obj_alloc. simpl. rewrite Hslab. by rewrite decide_True.
- exists (st_next_pid st). split; [|done].
  simpl. by destruct st.
Qed.

(** X6. After a successful [proc_create] under the same conditions,
  [proc_lookup] of the new pid answers the new descriptor. *)
Theorem proc_lookup_after_create (idleproc : Z) (name : string)
  (st : kstate) (p : Z) (st' : kstate) :
1 ≤ st_next_pid st < PROC_MAX_COUNT →
registry_ok st →
proc_create name st = Ok (p, st') → p ≠ NULL →
∃ rnew, st_procs st' !! p = Some rnew ∧
  proc_lookup idleproc (p_pid rnew) st' = Ok p.
Proof.
intros Hn Hreg Hrun Hp.
destruct (proc_create_ok_inv _ _ _ _ Hrun Hp)
  as (pid & slab & rnew & rcur & fs & vs & pts & Hid & Hpos & Hslab & Hpid &
      _ & _ & _ & _ & _ & _ & Hrcur & ->).
destruct (proc_getid_fresh st pid _ Hn Hreg Hid Hpos) as [Hrange Hfresh].
set (procs' := <[st_curproc st := _]> _).
assert (∃ r', procs' !! p = Some r' ∧ p_pid r' = pid) as (r' & Hr' & Hpid').
{ subst procs'. destruct (decide (p = st_curproc st)) as [Hpc|Hpc].
  - rewrite <- Hpc in *. rewrite lookup_insert_eq in Hrcur. injection Hrcur as <-.
    rewrite lookup_insert_eq. by eexists.
  - rewrite lookup_insert_ne by done. rewrite lookup_insert_eq. by eexists. }
exists r'. split; [done|]. unfold proc_lookup. rewrite decide_False by lia.
simpl. rewrite Hpid'.
assert (∀ l, Forall (λ q, is_Some (st_procs st !! q)) l →
             ¬ pid_among st l pid →
             ∀ s, st_procs s = procs' →
             lookup_walk s (l ++ [p]) pid = Ok p) as Hwalk.
{ intros l Hl. induction Hl as [|q l [rq Hq] _ IH]; intros Hno s Hs; simpl.
  - unfold deref. rewrite Hs, Hr'. simpl. by rewrite decide_True.
  - unfold deref. rewrite Hs.
    destruct (decide (q = p)) as [->|Hqp].
    { rewrite Hr'. simpl. by rewrite decide_True. }
    assert (∃ rq', procs' !! q = Some rq' ∧ p_pid rq' = p_pid rq) as (rq' & -> & Hrq').
    { subst procs'. destruct (decide (q = st_curproc st)) as [->|Hqc].
      - rewrite lookup_insert_eq. rewrite lookup_insert_ne in Hrcur by done.
        eexists. split; [done|]. simpl. congruence.
      - rewrite !lookup_insert_ne by done. by exists rq. }
    simpl. rewrite decide_False.
    + apply IH; [|done]. intros (x & rx & Hin & Hx & Hxp). apply Hno.
      exists x, rx. split; [by right|done].
    + intros Heq. apply Hno. exists q, rq. split; [left|]. split; [done|congruence]. }
by apply Hwalk.
Qed.

End CreateMore.

(** ** The registry invariant *)

Section Invariant.
Context `{Config}.

Lemma ids_kept_refl st : ids_kept st st.
Proof. repeat split; try done. intros q r Hr. by exists r. Qed.

Lemma ids_kept_trans st1 st2 st3 :
ids_kept st1 st2 → ids_kept st2 st3 → ids_kept st1 st3.
Proof.
intros (Hl1 & Hn1 & Hs1 & Hno1 & Hp1) (Hl2 & Hn2 & Hs2 & Hno2 & Hp2).
repeat split; try congruence.
- intros q Hq. by apply Hno2, Hno1.
- intros q r Hr. destruct (Hp1 q r Hr) as (r1 & Hr1 & E1).
  destruct (Hp2 q r1 Hr1) as (r2 & Hr2 & E2). exists r2. split; [done|congruence].
Qed.

Lemma ids_kept_same st st' :
st_procs st' = st_procs st → st_proc_list st' = st_proc_list st →
st_next_pid st' = st_next_pid st → st_slab st' = st_slab st →
ids_kept st st'.
Proof.
intros Hp Hl Hn Hs. repeat split; try done.
- intros q. by rewrite Hp.
- intros q r Hr. exists r. by rewrite Hp.
Qed.

Lemma ids_kept_modify p f st st' :
(∀ r, p_pid (f r) = p_pid r) → modify p f st = Ok st' → ids_kept st st'.
Proof.
intros Hf Hrun. apply modify_inv in Hrun as (r & Hr & ->).
repeat split; try done; simpl.
- intros q Hq. rewrite lookup_insert_ne; [done|]. intros <-. congruence.
- intros q rq Hq. destruct (decide (q = p)) as [->|Hne].
  + rewrite lookup_insert_eq. eexists. split; [done|]. rewrite Hf. congruence.
  + rewrite lookup_insert_ne by done. by exists rq.
Qed.

Lemma fs_step_ids proc st st' : fs_step proc st st' → ids_kept st st'.
Proof.
intros (r & r' & fs & vs & Hr & Hrel & _ & _ & ->).
repeat split; try done; simpl.
- intros q Hq. rewrite lookup_insert_ne; [done|]. intros <-. congruence.
- intros q rq Hq. destruct (decide (q = proc)) as [->|Hne].
  + rewrite lookup_insert_eq. eexists. split; [done|].
    destruct Hrel as (E & _). congruence.
  + rewrite lookup_insert_ne by done. by exists rq.
Qed.

Lemma unlink_child_ids c st : ids_kept st (unlink_child c st).
Proof.
repeat split; try done.
- intros q Hq. rewrite unlink_child_lookup, Hq. done.
- intros q r Hq. rewrite unlink_child_lookup, Hq. simpl. by eexists.
Qed.

Lemma reparent_ids c st st' : reparent c st = Ok st' → ids_kept st st'.
Proof.
unfold reparent.
destruct (modify _ _ (unlink_child c st)) as [st2|] eqn:H2; [|done]. simpl.
intros H3. eapply ids_kept_trans; [apply unlink_child_ids|].
eapply ids_kept_trans; eapply ids_kept_modify; try eassumption; done.
Qed.

Lemma for_each_ids {A : Type} (body : A → kstate → result kstate) l :
(∀ x st st', body x st = Ok st' → ids_kept st st') →
∀ st st', for_each body l st = Ok st' → ids_kept st st'.
Proof.
intros Hbody. induction l as [|x l IH]; intros st st'; simpl.
- intros [= <-]. apply ids_kept_refl.
- destruct (body x st) as [st1|] eqn:H1; [|done]. simpl. intros Hrest.
  eapply ids_kept_trans; [by eapply Hbody|by apply IH].
Qed.

Lemma set_trace_ids f st : ids_kept st (set_trace f st).
Proof. by apply ids_kept_same. Qed.

Lemma cleanup_children_ids st st' :
cleanup_children st = Ok st' → ids_kept st st'.
Proof.
unfold cleanup_children, deref.
destruct (st_procs st !! st_curproc st) as [cur|]; [|done]. simpl.
case_decide.
- intros [= <-]. apply set_trace_ids.
- apply for_each_ids. intros x. apply reparent_ids.
Qed.

Lemma proc_cleanup_ids status st st' :
proc_cleanup status st = Ok st' → ids_kept st st'.
Proof.
unfold proc_cleanup.
destruct (cleanup_mark_dead status st) as [st1|] eqn:H1; [|done]. simpl.
destruct (cleanup_release st1) as [st2|] eqn:H2; [|done]. simpl. intros H3.
unfold cleanup_mark_dead in H1.
assert (ids_kept st st1) as K1 by (by eapply ids_kept_modify; [|exact H1]).
apply modify_inv in H1 as (cur & Hcur & ->).
eapply ids_kept_trans; [exact K1|].
eapply ids_kept_trans; [|by apply cleanup_children_ids].
eapply fs_step_ids, cleanup_release_step; [|exact H2].
simpl. apply lookup_insert_eq.
Qed.

Lemma proc_thread_exiting_ids retval st st' :
proc_thread_exiting retval st = Ok st' → ids_kept st st'.
Proof.
unfold proc_thread_exiting.
destruct (proc_cleanup retval st) as [st1|] eqn:H1; [|done]. simpl.
destruct (st_threads st1 !! st_curthr st1); [|done].
destruct (deref _ _) as [cur|]; [|done]. simpl.
destruct (deref _ _); [|done]. simpl. intros [= <-].
eapply ids_kept_trans; [by eapply proc_cleanup_ids|].
by apply ids_kept_same.
Qed.

Lemma kill_all_body_ids p st st' :
kill_all_body p st = Ok st' → ids_kept st st'.
Proof.
unfold kill_all_body, proc_kill, deref.
destruct (st_procs st !! p) as [r|]; [|done]. simpl.
destruct (st_procs st !! st_curproc st) as [cur|]; [|done]. simpl.
case_decide.
- rewrite emit_all. intros [= <-]. apply set_trace_ids.
- intros [= <-]. apply ids_kept_refl.
Qed.

Lemma proc_kill_all_ids st st' : proc_kill_all st = Ok st' → ids_kept st st'.
Proof.
unfold proc_kill_all.
destruct (for_each _ _ _) as [st1|] eqn:H1; [|done]. simpl. intros [= <-].
eapply ids_kept_trans; [|apply set_trace_ids].
eapply for_each_ids; [|exact H1]. apply kill_all_body_ids.
Qed.

(** What a [proc_destroy] that comes back has done to the registry and the
  allocator. *)
Lemma proc_destroy_shape proc st st' :
proc_destroy proc st = Ok st' →
is_Some (st_procs st !! proc) ∧
st_procs st' = delete proc (st_procs st) ∧
st_proc_list st' = list_remove proc (st_proc_list st) ∧
st_next_pid st' = st_next_pid st ∧
st_slab st' = proc :: st_slab st.
Proof.
unfold proc_destroy, deref. simpl.
destruct (st_procs st !! proc) as [r|] eqn:Hr; [|done]. simpl.
rewrite emit_all.
set (st2 := set_trace _ _).
destruct (for_each (release_fd proc) (seq 0 NFILES) st2) as [st3|] eqn:H3; [|done].
simpl. destruct (release_cwd proc st3) as [st4|] eqn:H4; [|done]. simpl.
assert (fs_step proc st2 st4) as Hstep.
{ eapply fs_step_trans.
  - by eapply (release_fds_step _ _ st2 st3 r).
  - by apply release_cwd_step. }
destruct Hstep as (r2 & r4 & fs & vs & Hr2 & Hrel & _ & _ & ->).
unfold deref. simpl. rewrite lookup_insert_eq. simpl.
case_decide; [done|]. intros [= <-]. simpl.
rewrite delete_insert_eq. done.
Qed.

Lemma reap_shape c status st st' :
reap c status st = Ok st' →
is_Some (st_procs st !! c) ∧
st_proc_list st' = list_remove c (st_proc_list st) ∧
st_next_pid st' = st_next_pid st ∧
st_slab st' = c :: st_slab st ∧
st_procs st' !! c = None ∧
(∀ q, st_procs st !! q = None → st_procs st' !! q = None) ∧
(∀ q r, q ≠ c → st_procs st !! q = Some r →
   ∃ r', st_procs st' !! q = Some r' ∧ p_pid r' = p_pid r).
Proof.
unfold reap, deref, store_int.
destruct (st_procs st !! c) as [r|] eqn:Hr; [|done]. simpl.
destruct (st_ints st !! status) as [old|] eqn:Hs; [|done]. simpl.
intros Hd. apply proc_destroy_shape in Hd as (_ & Hp & Hl & Hn & Hsl).
split; [by eexists|]. repeat (split; [done|]).
split; [rewrite Hp; apply lookup_delete_eq|]. split.
- intros q Hq. rewrite Hp. apply lookup_delete_None. right.
  rewrite unlink_child_lookup. simpl. by rewrite Hq.
- intros q rq Hne Hq. rewrite Hp. rewrite lookup_delete_ne by done.
  rewrite unlink_child_lookup. simpl. rewrite Hq. simpl. by eexists.
Qed.

Lemma kernel_ok_ids st st' : ids_kept st st' → kernel_ok st → kernel_ok st'.
Proof.
intros (Hl & Hn & Hs & Hno & Hp) (Hreg & Hnd & Huniq & Hrange & Hcur & Hsnd & Hfree).
assert (∀ p r', p ∈ st_proc_list st → st_procs st' !! p = Some r' →
          ∃ r, st_procs st !! p = Some r ∧ p_pid r' = p_pid r) as Hback.
{ intros p r' Hin Hr'. unfold registry_ok in Hreg.
  rewrite Forall_forall in Hreg. destruct (Hreg p Hin) as [r Hr].
  destruct (Hp p r Hr) as (r2 & Hr2 & E). exists r. split; [done|congruence]. }
unfold kernel_ok. rewrite Hl, Hn, Hs.
split; [|split; [done|split; [|split; [|split; [done|split; [done|]]]]]].
- unfold registry_ok in *. rewrite Hl. rewrite Forall_forall in *.
  intros p Hin. destruct (Hreg p Hin) as [r Hr].
  destruct (Hp p r Hr) as (r' & Hr' & _). by eexists.
- intros p q rp rq Hpin Hqin Hrp Hrq E. rewrite Hl in Hpin, Hqin.
  destruct (Hback p rp Hpin Hrp) as (rp0 & Hrp0 & Ep).
  destruct (Hback q rq Hqin Hrq) as (rq0 & Hrq0 & Eq).
  apply (Huniq p q rp0 rq0); try done. congruence.
- intros p r Hin Hr. destruct (Hback p r Hin Hr) as (r0 & Hr0 & E).
  rewrite E. by apply (Hrange p r0).
- intros a Ha. by apply Hno, Hfree.
Qed.

Lemma kernel_ok_reap c status st st' :
reap c status st = Ok st' → kernel_ok st → kernel_ok st'.
Proof.
intros Hrun (Hreg & Hnd & Huniq & Hrange & Hcur & Hsnd & Hfree).
apply reap_shape in Hrun as ([rc Hrc] & Hl & Hn & Hs & Hgone & Hno & Hp).
unfold registry_ok in Hreg. rewrite Forall_forall in Hreg.
assert (∀ p r', p ∈ st_proc_list st' → st_procs st' !! p = Some r' →
          p ∈ st_proc_list st ∧
          ∃ r, st_procs st !! p = Some r ∧ p_pid r' = p_pid r) as Hback.
{ intros p r' Hin Hr'. rewrite Hl in Hin.
  apply elem_of_list_remove in Hin as [Hne Hin]. split; [done|].
  destruct (Hreg p Hin) as [r Hr].
  destruct (Hp p r Hne Hr) as (r2 & Hr2 & E). exists r. split; [done|congruence]. }
unfold kernel_ok. rewrite Hn. split; [|split; [|split; [|split; [|split; [done|split]]]]].
- unfold registry_ok. rewrite Forall_forall. intros p Hin.
  assert (p ∈ st_proc_list st') as Hin' by done.
  rewrite Hl in Hin. apply elem_of_list_remove in Hin as [Hne Hin].
  destruct (Hreg p Hin) as [r Hr].
  destruct (Hp p r Hne Hr) as (r' & Hr' & _). by eexists.
- rewrite Hl. unfold list_remove. by apply NoDup_filter.
- intros p q rp rq Hpin Hqin Hrp Hrq E.
  destruct (Hback p rp Hpin Hrp) as (Hp0 & rp0 & Hrp0 & Ep).
  destruct (Hback q rq Hqin Hrq) as (Hq0 & rq0 & Hrq0 & Eq).
  apply (Huniq p q rp0 rq0); try done. congruence.
- intros p r Hin Hr. destruct (Hback p r Hin Hr) as (Hp0 & r0 & Hr0 & E).
  rewrite E. by apply (Hrange p r0).
- rewrite Hs. apply NoDup_cons. split; [|done].
  intros Hin. apply Hfree in Hin. congruence.
- intros a. rewrite Hs. intros [->|Hin]%elem_of_cons; [done|].
  by apply Hno, Hfree.
Qed.

Lemma next_id_range pid :
1 ≤ pid < PROC_MAX_COUNT → 1 ≤ next_id pid < PROC_MAX_COUNT.
Proof. intros Hpid. unfold next_id. case_decide; lia. Qed.

Lemma kernel_ok_shrink st st' :
st_procs st' = st_procs st → st_proc_list st' = st_proc_list st →
1 ≤ st_next_pid st' < PROC_MAX_COUNT →
NoDup (st_slab st') → (∀ a, a ∈ st_slab st' → a ∈ st_slab st) →
kernel_ok st → kernel_ok st'.
Proof.
intros Hp Hl Hn Hnd' Hsub (Hreg & Hnd & Huniq & Hrange & Hcur & Hsnd & Hfree).
unfold kernel_ok, registry_ok, pids_unique in *. rewrite Hp, Hl.
split; [done|]. split; [done|]. split; [done|]. split; [done|].
split; [done|]. split; [done|]. intros a Ha. by apply Hfree, Hsub.
Qed.

Lemma kernel_ok_create name st p st' :
proc_create name st = Ok (p, st') → kernel_ok st → kernel_ok st'.
Proof.
intros Hrun Hok.
pose proof Hok as (Hreg & Hnd & Huniq & Hrange & Hcur & Hsnd & Hfree).
destruct (decide (p = NULL)) as [->|Hp].
- (* no descriptor: only the cursor and the allocator may have moved *)
  unfold proc_create in Hrun.
  destruct (_proc_getid st) as [[pid st1]|] eqn:Hid; [|done]. simpl in Hrun.
  destruct (proc_getid_cases st pid st1 Hcur Hreg Hid)
    as [[-> ->]|(Hpid & ->)].
  { rewrite decide_True in Hrun by lia. by injection Hrun as <-. }
  rewrite decide_False in Hrun by lia.
  unfold slab_obj_alloc in Hrun. simpl in Hrun.
  destruct (st_slab st) as [|a slab] eqn:Hslab.
  + rewrite decide_True in Hrun by done. injection Hrun as <-.
    apply (kernel_ok_shrink st); try done; simpl.
    * by apply next_id_range.
    * by rewrite Hslab.
  + case_decide as Ha; [|exfalso].
    * injection Hrun as <-.
      apply NoDup_cons in Hsnd as [_ Hsnd].
      apply (kernel_ok_shrink st); try done; simpl.
      -- by apply next_id_range.
      -- intros b Hb. rewrite Hslab. by right.
    * destruct (pt_create _) as [pml4 st3].
      destruct (for_each _ _ _) as [st5|]; [|done]. simpl in Hrun.
      destruct (clone_cwd _ _) as [st6|]; [|done]. simpl in Hrun.
      destruct (modify _ _ _) as [st8|]; [|done]. simpl in Hrun.
      injection Hrun as Hnull _. done.
- destruct (proc_create_ok_inv _ _ _ _ Hrun Hp)
    as (pid & slab & rnew & rcur & fs & vs & pts & Hid & Hpos & Hslab & Hpid &
        _ & _ & _ & _ & _ & _ & Hrcur & ->).
  destruct (proc_getid_fresh st pid _ Hcur Hreg Hid Hpos) as [Hprange Hfresh].
  assert (st_procs st !! p = None) as Hpnone.
  { apply Hfree. rewrite Hslab. left. }
  unfold registry_ok in Hreg. rewrite Forall_forall in Hreg.
  assert (p ∉ st_proc_list st) as Hpnew.
  { intros Hin. destruct (Hreg p Hin) as [r Hr]. congruence. }
  set (procs' := <[st_curproc st := _]> _).
  assert (∃ r', procs' !! p = Some r' ∧ p_pid r' = pid) as (r' & Hr' & Hpid').
  { subst procs'. destruct (decide (p = st_curproc st)) as [Hpc|Hpc].
    - rewrite <- Hpc in *. rewrite lookup_insert_eq in Hrcur. injection Hrcur as <-.
      rewrite lookup_insert_eq. by eexists.
    - rewrite lookup_insert_ne by done. rewrite lookup_insert_eq. by eexists. }
  assert (∀ q rq', q ≠ p → procs' !! q = Some rq' →
            ∃ rq, st_procs st !! q = Some rq ∧ p_pid rq' = p_pid rq) as Hold.
  { intros q rq' Hqp. subst procs'.
    destruct (decide (q = st_curproc st)) as [->|Hqc].
    - rewrite lookup_insert_eq. intros [= <-].
      rewrite lookup_insert_ne in Hrcur by done. by exists rcur.
    - rewrite !lookup_insert_ne by done. intros Hq. by exists rq'. }
  assert (∀ q rq, st_procs st !! q = Some rq → is_Some (procs' !! q)) as Hfwd.
  { intros q rq Hq. subst procs'.
    destruct (decide (q = st_curproc st)) as [->|Hqc].
    - rewrite lookup_insert_eq. by eexists.
    - rewrite lookup_insert_ne by done.
      destruct (decide (q = p)) as [->|Hqp]; [congruence|].
      rewrite lookup_insert_ne by done. by eexists. }
  assert (∀ q rq', q ∈ st_proc_list st ++ [p] → procs' !! q = Some rq' →
            q = p ∧ p_pid rq' = pid ∨
            q ≠ p ∧ q ∈ st_proc_list st ∧
              ∃ rq, st_procs st !! q = Some rq ∧ p_pid rq' = p_pid rq) as Hcase.
  { intros q rq' Hin Hq. destruct (decide (q = p)) as [->|Hqp].
    - left. split; [done|]. congruence.
    - right. split; [done|]. split.
      + apply elem_of_app in Hin as [Hin|Hin]; [done|].
        by apply list_elem_of_singleton in Hin.
      + by apply Hold. }
  unfold kernel_ok. simpl.
  split; [|split; [|split; [|split; [|split; [|split]]]]].
  + unfold registry_ok. simpl. rewrite Forall_forall. intros q Hin.
    apply elem_of_app in Hin as [Hin|Hin].
    * destruct (Hreg q Hin) as [rq Hq]. by apply (Hfwd q rq).
    * apply list_elem_of_singleton in Hin as ->. by eexists.
  + apply NoDup_app. split; [done|]. split; [|apply NoDup_singleton].
    intros x Hx Hx'. apply list_elem_of_singleton in Hx' as ->. done.
  + intros a b ra rb Ha Hb Hra Hrb E. simpl in *.
    destruct (Hcase a ra Ha Hra) as [[-> Ea]|(Hap & Hain & ra0 & Hra0 & Ea)];
      destruct (Hcase b rb Hb Hrb) as [[-> Eb]|(Hbp & Hbin & rb0 & Hrb0 & Eb)].
    * done.
    * destruct Hfresh. exists b, rb0. split; [done|]. split; [done|]. congruence.
    * destruct Hfresh. exists a, ra0. split; [done|]. split; [done|]. congruence.
    * apply (Huniq a b ra0 rb0); try done. congruence.
  + intros a ra Ha Hra. simpl in *.
    destruct (Hcase a ra Ha Hra) as [[-> Ea]|(Hap & Hain & ra0 & Hra0 & Ea)].
    * by rewrite Ea.
    * rewrite Ea. by apply (Hrange a ra0).
  + by apply next_id_range.
  + rewrite Hslab in Hsnd. by apply NoDup_cons in Hsnd as [_ ?].
  + intros a Ha. simpl.
    rewrite Hslab in Hsnd. apply NoDup_cons in Hsnd as [Hpa _].
    assert (a ≠ p) as Hap by (intros ->; done).
    assert (st_procs st !! a = None) as Hanone.
    { apply Hfree. rewrite Hslab. by right. }
    subst procs'. destruct (decide (a = st_curproc st)) as [Hac|Hac].
    * rewrite <- Hac in Hrcur. rewrite lookup_insert_ne in Hrcur by done. congruence.
    * by rewrite !lookup_insert_ne.
Qed.

Lemma wait_child_ret c pid status st ret st' :
wait_child c pid status st = Returned ret st' → reap c status st = Ok st'.
Proof.
unfold wait_child. destruct (deref st c); [|done].
case_decide; [done|]. destruct (reap c status st) eqn:Hreap; [|done]. simpl.
by intros [= _ <-].
Qed.

Lemma wait_find_ret l pid status st ret st' :
wait_find l pid status st = Returned ret st' →
st' = st ∨ ∃ c, reap c status st = Ok st'.
Proof.
induction l as [|c l IH]; simpl.
- intros [= _ <-]. by left.
- destruct (deref st c); [|done]. case_decide; [|exact IH].
  intros Hc. right. exists c. by eapply wait_child_ret.
Qed.

Lemma wait_scan_ret l status st ret st' :
wait_scan l status st = Returned ret st' → ∃ c, reap c status st = Ok st'.
Proof.
induction l as [|c l IH]; simpl; [done|].
destruct (deref st c); [|done]. case_decide; [|exact IH].
destruct (reap c status st) eqn:Hreap; [|done]. simpl. intros [= _ <-]. by exists c.
Qed.

Lemma do_waitpid_ret pid status options st ret st' :
do_waitpid pid status options st = Returned ret st' →
st' = st ∨ ∃ c, reap c status st = Ok st'.
Proof.
unfold do_waitpid, wait_any. case_decide; [intros [= _ <-]; by left|].
destruct (deref st (st_curproc st)) as [cur|]; [|done].
case_decide; [apply wait_find_ret|].
case_decide; [intros [= _ <-]; by left|].
intros Hs. right. by eapply wait_scan_ret.
Qed.

Lemma do_waitpid_resume_ret pc pid status st ret st' :
do_waitpid_resume pc pid status st = Returned ret st' →
∃ c, reap c status st = Ok st'.
Proof.
destruct pc as [c|]; simpl.
- intros Hc. exists c. by eapply wait_child_ret.
- unfold wait_any. destruct (deref st (st_curproc st)); [|done].
  apply wait_scan_ret.
Qed.

(** X7. The registry invariant is kept by the whole lifecycle.  If every
  registered link is an allocated descriptor, no descriptor is
  registered twice, registered pids are distinct and in
  [1, PROC_MAX_COUNT), the cursor is in that range, and the objects the
  allocator can hand out are distinct and hold no descriptor, then the
  same holds after any [proc_create] (successful or not), any exit, any
  [proc_kill_all], any [do_waitpid] that returns or sleeps, any wake-up
  of a sleeping [do_waitpid], and any context switch. *)
Theorem kernel_ok_invariant (o : op) (st st' : kstate) :
kstep o st st' → kernel_ok st → kernel_ok st'.
Proof.
intros Hstep Hok.
destruct Hstep as [name st p st' Hrun | retval st st' Hrun | st st' Hrun
  | pid status options st ret st' Hrun | pid status options st pc st' Hrun
  | pc pid status st ret st' Hrun | pc pid status st pc' st' Hrun
  | proc thr st].
- by eapply kernel_ok_create.
- eapply kernel_ok_ids; [|done]. by eapply proc_thread_exiting_ids.
- eapply kernel_ok_ids; [|done]. by apply proc_kill_all_ids.
- apply do_waitpid_ret in Hrun as [->|[c Hc]]; [done|]. by eapply kernel_ok_reap.
- apply (proj2 (do_waitpid_kept _ _ _ _)) in Hrun as ->. done.
- apply do_waitpid_resume_ret in Hrun as [c Hc]. by eapply kernel_ok_reap.
- apply (proj2 (do_waitpid_resume_kept _ _ _ _)) in Hrun as ->. done.
- eapply kernel_ok_ids; [|done]. by apply ids_kept_same.
Qed.

End Invariant.

(** ** Waiting for any child *)

Section WaitAny.
Context `{Config}.





End WaitAny.

(** ** What an exit leaves behind *)

Section ExitMore.
Context `{Config}.

Lemma relinking_refl l st : relinking l st st.
Proof. intros q r Hq. exists r. split; [done|]. split; [apply same_self_refl|done]. Qed.

Lemma relinking_trans l st1 st2 st3 :
relinking l st1 st2 → relinking l st2 st3 → relinking l st1 st3.
Proof.
intros H12 H23 q r Hq.
destruct (H12 q r Hq) as (r2 & Hr2 & Hs2 & Hm2 & Hp2).
destruct (H23 q r2 Hr2) as (r3 & Hr3 & Hs3 & Hm3 & Hp3).
exists r3. split; [done|]. split; [by eapply same_self_trans|]. split.
- intros x Hx. rewrite Hm3 by done. by apply Hm2.
- intros Hql. rewrite Hp3 by done. by apply Hp2.
Qed.

Lemma relinking_weaken l l' st st' :
(∀ x, x ∈ l → x ∈ l') → relinking l st st' → relinking l' st st'.
Proof.
intros Hsub Hrel q r Hq. destruct (Hrel q r Hq) as (r' & Hr' & Hs & Hm & Hp).
exists r'. split; [done|]. split; [done|]. split.
- intros x Hx. apply Hm. intros Hin. by apply Hx, Hsub.
- intros Hql. apply Hp. intros Hin. by apply Hql, Hsub.
Qed.

Lemma relinking_modify l p f st st' :
(∀ r, same_self r (f r)) →
(∀ r x, x ∉ l → x ∈ p_children (f r) ↔ x ∈ p_children r) →
(p ∉ l → ∀ r, p_pproc (f r) = p_pproc r) →
modify p f st = Ok st' → relinking l st st'.
Proof.
intros Hs Hm Hp Hrun. apply modify_inv in Hrun as (r0 & Hr0 & ->).
intros q r Hq. simpl. destruct (decide (q = p)) as [->|Hne].
- rewrite lookup_insert_eq. exists (f r0). split; [done|].
  assert (r0 = r) as -> by congruence.
  split; [done|]. split; [by apply Hm|]. intros Hpl. by apply Hp.
- rewrite lookup_insert_ne by done. exists r. split; [done|].
  split; [apply same_self_refl|done].
Qed.

Lemma relinking_unlink c st : relinking [c] st (unlink_child c st).
Proof.
intros q r Hq. rewrite unlink_child_lookup, Hq. simpl. eexists.
split; [done|]. split; [done|]. split; [|done].
intros x Hx. simpl. rewrite elem_of_list_remove.
rewrite list_elem_of_singleton in Hx. tauto.
Qed.

Lemma reparent_relinking c st st' :
reparent c st = Ok st' → relinking [c] st st'.
Proof.
unfold reparent.
destruct (modify _ _ (unlink_child c st)) as [st2|] eqn:H2; [|done]. simpl.
intros H3. eapply relinking_trans; [apply relinking_unlink|].
eapply relinking_trans.
- eapply relinking_modify; [| | |exact H2]; try done.
  intros r x Hx. simpl. unfold list_insert_tail. rewrite elem_of_app.
  rewrite list_elem_of_singleton in *. tauto.
- eapply relinking_modify; [| | |exact H3]; try done.
  intros Hcc. destruct Hcc. by apply list_elem_of_singleton.
Qed.

Lemma reparent_all_relinking l : ∀ st st',
for_each reparent l st = Ok st' → relinking l st st'.
Proof.
induction l as [|c l IH]; intros st st'; simpl.
- intros [= <-]. apply relinking_refl.
- destruct (reparent c st) as [st1|] eqn:H1; [|done]. simpl. intros Hrest.
  eapply relinking_trans.
  + eapply relinking_weaken; [|by apply reparent_relinking].
    intros x Hx. apply list_elem_of_singleton in Hx as ->. left.
  + eapply relinking_weaken; [|by apply IH]. intros x Hx. by right.
Qed.

(** What [proc_cleanup] leaves of the current process and of the others. *)
Lemma proc_cleanup_effect status st st' cur :
st_procs st !! st_curproc st = Some cur →
proc_cleanup status st = Ok st' →
st_curproc st' = st_curproc st ∧
(∃ cur', st_procs st' !! st_curproc st = Some cur' ∧
   p_pid cur' = p_pid cur ∧ p_pml4 cur' = p_pml4 cur ∧
   p_threads cur' = p_threads cur ∧
   p_state cur' = PROC_DEAD ∧ p_status cur' = status ∧ p_cwd cur' = NULL ∧
   (∀ fd, (fd < NFILES)%nat → slot (p_files cur') fd = NULL) ∧
   (st_curproc st ∉ p_children cur → p_pproc cur' = p_pproc cur)) ∧
(∀ q r, st_procs st !! q = Some r →
   ∃ r', st_procs st' !! q = Some r' ∧ p_pid r' = p_pid r ∧
     ∀ x, x ∉ p_children cur → x ∈ p_children r' ↔ x ∈ p_children r) ∧
(∀ q, st_procs st !! q = None → st_procs st' !! q = None).
Proof.
intros Hcur Hrun.
destruct (proc_cleanup_kept _ _ _ Hrun) as (_ & Hc & curk & Hcurk & Hdead & Hstat).
destruct (proc_cleanup_releases _ _ _ _ Hcur Hrun) as (_ & _ & curr & Hcurr & Hcwd & Hfiles).
assert (curr = curk) as -> by congruence.
destruct (proc_cleanup_ids _ _ _ Hrun) as (_ & _ & _ & Hnone & _).
assert (∃ st2 r2, relinking (p_children cur) st2 st' ∧
          st_procs st2 = <[st_curproc st := r2]> (st_procs st) ∧
          p_pid r2 = p_pid cur ∧ p_threads r2 = p_threads cur ∧
          p_children r2 = p_children cur ∧ p_pproc r2 = p_pproc cur ∧
          p_pml4 r2 = p_pml4 cur)
  as (st2 & r2 & Hrel & Hp2 & E1 & E3 & E4 & E5 & E8).
{ unfold proc_cleanup in Hrun. rewrite (cleanup_mark_dead_eq _ _ cur Hcur) in Hrun.
  simpl in Hrun.
  set (st1 := set_procs (insert (st_curproc st) (with_exit status cur)) st) in *.
  assert (st_procs st1 !! st_curproc st1 = Some (with_exit status cur)) as Hcur1.
  { simpl. apply lookup_insert_eq. }
  destruct (cleanup_release st1) as [st2|] eqn:H2; [|done]. simpl in Hrun.
  apply (cleanup_release_step _ _ _ Hcur1) in H2.
  destruct H2 as (r1 & r2 & fs & vs & Hr1 & Hrl & _ & _ & ->).
  assert (r1 = with_exit status cur) as -> by congruence.
  destruct Hrl as (E1 & E2 & E3 & E4 & E5 & E6 & E7 & E8 & _ & _).
  exists (set_vnodes (λ _, vs) (set_files (λ _, fs)
            (set_procs (insert (st_curproc st1) r2) st1))), r2.
  split; [|split; [simpl; apply insert_insert_eq|done]].
  unfold cleanup_children, deref in Hrun. simpl in Hrun.
  rewrite lookup_insert_eq in Hrun. simpl in Hrun.
  case_decide.
  - injection Hrun as <-. intros q r Hq. exists r. split; [done|].
    split; [apply same_self_refl|done].
  - simpl in E4. rewrite E4 in Hrun. by apply reparent_all_relinking. }
destruct (Hrel (st_curproc st) r2) as (cur' & Hcur' & Hs & Hm & Hp).
{ rewrite Hp2. apply lookup_insert_eq. }
assert (cur' = curk) as -> by congruence.
destruct Hs as (S1 & S2 & S3 & S4 & S5 & S6 & S7 & S8).
split; [done|]. split; [|split; [|done]].
- exists curk. split; [done|]. split; [congruence|]. split; [congruence|].
  split; [congruence|]. split; [done|]. split; [done|]. split; [done|].
  split; [done|]. intros Hself. rewrite Hp by done. done.
- intros q r Hq. destruct (decide (q = st_curproc st)) as [->|Hne].
  + assert (r = cur) as -> by congruence. exists curk.
    split; [done|]. split; [congruence|]. intros x Hx. rewrite Hm by done.
    by rewrite E4.
  + destruct (Hrel q r) as (r' & Hr' & Hs & Hm' & _).
    { rewrite Hp2. by rewrite lookup_insert_ne. }
    exists r'. split; [done|]. split; [by destruct Hs|done].
Qed.




(** X11. No reference is released twice.  After a [proc_cleanup] that
  comes back, [proc_destroy] of the same process, which has its page
  table, comes back too, in any state that has the files and vnodes as
  the cleanup left them and the descriptor with the same table: the
  second pass over the table finds it empty.  So from before the exit
  to after the destruction every file has lost exactly one reference
  for each slot of the table it occupied, and the working directory
  exactly one. *)
Theorem exit_destroy_releases_once (status : Z) (st st1 s : kstate)
  (cur r1 rs : proc_t) :
st_procs st !! st_curproc st = Some cur →
p_pml4 cur ≠ NULL →
proc_cleanup status st = Ok st1 →
st_procs st1 !! st_curproc st = Some r1 →
st_procs s !! st_curproc st = Some rs →
same_self r1 rs →
st_files s = st_files st1 →
st_vnodes s = st_vnodes st1 →
∃ st2, proc_destroy (st_curproc st) s = Ok st2 ∧
  (∀ f o, f ≠ NULL → st_files st !! f = Some o →
     ∃ o', st_files st2 !! f = Some o' ∧
       f_refcount o' = f_refcount o - occupancy (p_files cur) (seq 0 NFILES) f) ∧
  (∀ v n, st_vnodes st !! v = Some n →
     st_vnodes st2 !! v
     = Some (if decide (v = p_cwd cur ∧ v ≠ NULL) then n - 1 else n)).
Proof.
intros Hcur Hpml4 Hcl Hr1 Hrs Hsame Hfs Hvs.
destruct (proc_cleanup_effect _ _ _ _ Hcur Hcl)
  as (_ & (cur' & Hcur' & _ & Epml4 & _ & _ & _ & Ecwd & Efiles & _) & _ & _).
assert (cur' = r1) as -> by congruence.
destruct (proc_cleanup_releases _ _ _ _ Hcur Hcl) as (Hf & Hv & _).
destruct Hsame as (_ & _ & _ & _ & _ & S6 & S7 & S8).
destruct (proc_destroy_releases_nothing (st_curproc st) s rs Hrs)
  as (st2 & Hdes & Hf2 & Hv2).
{ rewrite S8. exact Efiles. } { congruence. } { congruence. }
exists st2. split; [done|]. rewrite Hf2, Hv2, Hfs, Hvs. done.
Qed.

End ExitMore.

(** ** Reaping frees the pid *)

Section ReapMore.
Context `{Config}.




End ReapMore.

(** ** Boot *)

Section Boot.
Context `{Config}.

Lemma pt_create_eq st :
pt_create st = (default NULL (head (st_pagetables st)),
                set_pagetables (λ _, tail (st_pagetables st)) st).
Proof.
unfold pt_create. destruct st as [? ? ? ? ? ? ? ? pts ? ? ? ?]. simpl.
by destruct pts.
Qed.

Lemma slot_replicate_null n fd : slot (replicate n NULL) fd = NULL.
Proof.
unfold slot. destruct (replicate n NULL !! fd) as [x|] eqn:E; [|done].
by apply lookup_replicate in E as [-> _].
Qed.

Lemma clone_fds_noop proc cur l : ∀ st,
st_procs st !! st_curproc st = Some cur →
(∀ fd, slot (p_files cur) fd = NULL) →
for_each (clone_fd proc) l st = Ok st.
Proof.
induction l as [|fd l IH]; intros st Hcur Hnull; simpl; [done|].
unfold clone_fd, deref. rewrite Hcur. simpl.
rewrite decide_False by (intros Hn; apply Hn, Hnull). simpl. by apply IH.
Qed.

(** X14. The first process.  On a kernel whose registry is empty and
  whose pid cursor is 1, as they are initialised, [proc_idleproc_init]
  followed by [proc_create] gives the next free descriptor pid 1 and
  the idle process, which has pid 0 and no parent, as parent; the new
  process is the only child of the idle process and the only entry of
  the registry (the idle process is not registered), no file or vnode
  is touched, and the new process is recorded as the init process when
  PID_INIT is 1. *)
Theorem boot_first_process (idleproc pml4 core : Z) (name : string)
  (st : kstate) (a : Z) (slab : list Z) :
st_proc_list st = [] →
st_next_pid st = 1 →
1 < PROC_MAX_COUNT →
st_slab st = a :: slab →
a ≠ NULL → a ≠ idleproc →
∃ st' rnew ridle,
  proc_create name (proc_idleproc_init idleproc pml4 core st) = Ok (a, st') ∧
  st_procs st' !! a = Some rnew ∧
  p_pid rnew = 1 ∧ p_pproc rnew = idleproc ∧ p_state rnew = PROC_RUNNING ∧
  st_procs st' !! idleproc = Some ridle ∧
  p_pid ridle = 0 ∧ p_pproc ridle = NULL ∧ p_children ridle = [a] ∧
  p_pml4 ridle = pml4 ∧
  st_proc_list st' = [a] ∧
  st_curproc st' = idleproc ∧ st_curthr st' = NULL ∧
  st_files st' = st_files st ∧ st_vnodes st' = st_vnodes st ∧
  (PID_INIT = 1 → st_initproc st' = a).
Proof.
intros Hl Hn Hmax Hslab Ha Hai.
set (st0 := proc_idleproc_init idleproc pml4 core st).
assert (_proc_getid st0 = Ok (1, set_next_pid (next_id 1) st0)) as Hget.
{ unfold _proc_getid. simpl. rewrite Hn.
  destruct (Z.to_nat PROC_MAX_COUNT) as [|fuel] eqn:E; [lia|]. simpl.
  rewrite Hl. simpl. done. }
set (idle := mk_proc 0
               (String.substring 0 (PROC_NAME_LEN - 1)
                  (String.substring 0 7 ("idle" +:+ pretty core)))
               [] [] NULL 0 PROC_RUNNING pml4 NULL (replicate NFILES NULL)).
assert (st_procs st0 = <[idleproc := idle]> (st_procs st)) as Hp0 by reflexivity.
set (pt := default NULL (head (st_pagetables st))).
set (new := fresh_proc 1 name idleproc pt).
set (st4 := set_procs (insert a new)
              (set_pagetables (λ _, tail (st_pagetables st))
                 (set_slab (λ _, slab) (set_next_pid (next_id 1) st0)))).
set (st7 := if decide (1 = PID_INIT) then set_initproc a st4 else st4).
assert (st_procs st4 !! st_curproc st4 = Some idle) as Hcur4.
{ simpl. rewrite lookup_insert_ne by done. apply lookup_insert_eq. }
assert (st_curproc st7 = idleproc) as Hc7 by (subst st7; by case_decide).
assert (st_procs st7 = <[a := new]> (<[idleproc := idle]> (st_procs st))) as Hp7.
{ subst st7. by case_decide. }
assert (proc_create name st0
        = Ok (a, set_proc_list (list_insert_tail a)
                   (set_procs (insert idleproc
                      (with_children (list_insert_tail a (p_children idle)) idle))
                      st7))) as Hrun.
{ unfold proc_create. rewrite Hget. simpl.
  unfold slab_obj_alloc. simpl. rewrite Hslab. rewrite decide_False by done.
  rewrite pt_create_eq. simpl.
  rewrite (clone_fds_noop a idle (seq 0 NFILES) st4 Hcur4)
    by (intros fd; apply slot_replicate_null).
  simpl. unfold clone_cwd, deref. rewrite Hcur4. simpl.
  fold st7.
  unfold modify, deref. rewrite Hc7, Hp7.
  rewrite lookup_insert_ne by done. rewrite lookup_insert_eq. simpl.
  reflexivity. }
eexists _, new, _. split; [exact Hrun|]. simpl. rewrite Hp7.
rewrite lookup_insert_ne by done. rewrite lookup_insert_eq.
rewrite lookup_insert_eq.
repeat (split; [done|]).
split; [by subst st7; case_decide; simpl; rewrite Hl|].
split; [by subst st7; case_decide|].
split; [by subst st7; case_decide|].
split; [by subst st7; case_decide|].
split; [by subst st7; case_decide|].
intros Hinit. subst st7. by rewrite decide_True.
Qed.

End Boot.

(** ** The table of a new process *)

Section ChildFd.
Context `{Config}.
Variable EMFILE : Z.

(** X15. A new process starts with an empty table whatever its parent has
  open: with NFILES positive, the first [get_empty_fd] of the new
  process, called with [fd] pointing to an int, returns 0 and leaves 0
  in that int, and changes nothing else. *)
Theorem child_first_fd (name : string) (st : kstate) (p : Z) (st' : kstate)
  (thr fdp : Z) :
proc_create name st = Ok (p, st') → p ≠ NULL →
(0 < NFILES)%nat →
is_Some (st_ints st' !! fdp) →
get_empty_fd EMFILE fdp (set_curthr thr (set_curproc p st'))
= Ok (0, set_ints (insert fdp 0) (set_curthr thr (set_curproc p st'))).
Proof.
intros Hrun Hp Hn [old Hold].
destruct (proc_create_table_empty _ _ _ _ Hrun Hp) as (r & Hr & Hempty).
unfold get_empty_fd, store_int. simpl. rewrite Hold. simpl.
destruct NFILES as [|n]; [lia|]. simpl.
unfold deref. simpl. rewrite Hr. simpl. by rewrite decide_True.
Qed.

End ChildFd.

(** ** Path tokens *)

Section Tokens.

Lemma skip_slashes_replicate k s :
peek s ≠ SLASH → skip_slashes (replicate k SLASH ++ s) = s.
Proof.
intros Hs. induction k as [|k IH]; simpl.
- destruct s as [|c s]; [done|]. simpl. by rewrite decide_False.
- exact IH.
Qed.

Lemma scan_token_app tok rest :
Forall name_char tok → ¬ name_char (peek rest) →
scan_token (tok ++ rest) = (length tok, rest).
Proof.
intros Htok Hrest. induction Htok as [|c tok Hc _ IH]; simpl.
- destruct rest as [|c rest]; [done|]. simpl. by rewrite decide_False.
- rewrite decide_True by done. by rewrite IH.
Qed.

(** X16. Let a path consist of [k] slashes, then a component [tok] of
  characters other than '/' and NUL, then a remainder that is empty or
  starts with '/' or NUL, the component being empty only at the end of
  the path.  Then [namev_tokenize] returns the pointer to the
  component, sets [len] to its length, and leaves in [search] the
  pointer to the remainder, or NULL when the remainder starts with NUL
  or is empty. *)
Theorem namev_tokenize_spec (k : nat) (tok rest : list ascii) :
Forall name_char tok →
¬ name_char (peek rest) →
(tok = [] → peek rest = NUL) →
namev_tokenize (Some (replicate k SLASH ++ tok ++ rest))
= (Some (tok ++ rest), length tok,
   if decide (peek rest = NUL) then None else Some rest).
Proof.
intros Htok Hrest Hend. unfold namev_tokenize.
rewrite skip_slashes_replicate.
- by rewrite scan_token_app.
- destruct Htok as [|c tok [_ Hc] _]; simpl; [|done].
  rewrite Hend by done. done.
Qed.

Lemma skip_slashes_inv s :
∃ k, s = replicate k SLASH ++ skip_slashes s ∧ peek (skip_slashes s) ≠ SLASH.
Proof.
induction s as [|c s (k & Hs & Hp)]; simpl.
- by exists O.
- case_decide as Hc.
  + exists (S k). simpl. split; [|done]. by rewrite Hc, <- Hs.
  + by exists O.
Qed.

Lemma scan_token_inv s n r :
scan_token s = (n, r) →
∃ tok, s = tok ++ r ∧ n = length tok ∧ Forall name_char tok ∧
  ¬ name_char (peek r).
Proof.
revert n r. induction s as [|c s IH]; intros n r; simpl.
- intros [= <- <-]. exists []. split; [done|]. split; [done|].
  split; [constructor|]. by intros [? _].
- case_decide as Hc.
  + destruct (scan_token s) as [m r'] eqn:Hs. intros [= <- <-].
    destruct (IH m r' eq_refl) as (tok & -> & -> & Htok & Hr).
    exists (c :: tok). split; [done|]. split; [done|].
    split; [by constructor|done].
  + intros [= <- <-]. exists []. split; [done|]. split; [done|].
    split; [constructor|done].
Qed.

(** X17. Every call is as X16 describes, and a loop over the tokens comes
  to an end: whatever the path, it consists of slashes, the token
  returned (whose characters are neither '/' nor NUL, and whose length
  is left in [len]) and the rest; the pointer left in [search] is NULL
  exactly when the rest is empty or starts with NUL, and otherwise it
  points to a '/' strictly further on, after a token that is not
  empty.  So [len] is 0 only when [search] is left NULL, and a call on
  NULL returns NULL and length 0. *)
Theorem namev_tokenize_progress (s : list ascii) :
namev_tokenize None = (None, O, None) ∧
∃ k tok rest,
  s = replicate k SLASH ++ tok ++ rest ∧
  Forall name_char tok ∧
  namev_tokenize (Some s)
  = (Some (tok ++ rest), length tok,
     if decide (peek rest = NUL) then None else Some rest) ∧
  (peek rest ≠ NUL →
   peek rest = SLASH ∧ tok ≠ [] ∧ (length rest < length s)%nat).
Proof.
split; [done|].
destruct (skip_slashes_inv s) as (k & Hs & Hp).
destruct (scan_token (skip_slashes s)) as [n rest] eqn:Hscan.
destruct (scan_token_inv _ _ _ Hscan) as (tok & Hb & -> & Htok & Hrest).
exists k, tok, rest. split; [by rewrite <- Hb|]. split; [done|].
split; [unfold namev_tokenize; by rewrite Hscan, <- Hb|].
intros Hnn.
assert (peek rest = SLASH) as Hsl.
{ destruct (decide (peek rest = SLASH)) as [|Hne]; [done|].
  destruct Hrest. by split. }
split; [done|].
assert (tok ≠ []) as Hne.
{ intros ->. simpl in Hb. rewrite Hb in Hp. done. }
split; [done|]. rewrite Hs, Hb, !length_app.
destruct tok; [done|]. simpl. lia.
Qed.

End Tokens.

(** ** The further properties at concrete states *)

Section MoreConcrete.
#[local] Existing Instance small_config.


Ltac list_cases H :=
repeat (apply elem_of_cons in H as [->|H]); try (by apply elem_of_nil in H).

Ltac not_in :=
let Hx := fresh in
intros Hx; repeat (apply elem_of_cons in Hx as [Hx|Hx]; [discriminate Hx|]);
by apply elem_of_nil in Hx.

Ltac no_dup := repeat (apply NoDup_cons; split; [not_in|]); apply NoDup_nil_2.

Lemma st_two_kernel_ok : kernel_ok st_two.
Proof.
split; [exact st_two_registry_ok|].
split; [simpl; no_dup|].
split; [|split; [|split; [simpl; lia|split; [simpl; no_dup|]]]].
- intros p q rp rq Hp Hq Hrp Hrq E. simpl in Hp, Hq.
  list_cases Hp; list_cases Hq; vm_compute in Hrp, Hrq;
    injection Hrp as <-; injection Hrq as <-; done.
- intros p r Hp Hr. simpl in Hp.
  list_cases Hp; vm_compute in Hr; injection Hr as <-; simpl; lia.
- intros a Ha. simpl in Ha. list_cases Ha. reflexivity.
Qed.


Lemma st_two_create : proc_create "job" st_two = Ok (400, st_two_created).
Proof. vm_compute. reflexivity. Qed.

Lemma proc_lookup_spec_witness :
registry_ok st_family ∧
proc_lookup 100 0 st_family = Ok 100 ∧
∃ p r, proc_lookup 100 3 st_family = Ok p ∧ p ∈ st_proc_list st_family ∧
  st_procs st_family !! p = Some r ∧ p_pid r = 3.
Proof.
split; [exact st_family_registry_ok|]. split.
- exact (proj1 (proc_lookup_spec 100 0 st_family st_family_registry_ok) eq_refl).
- apply (proj2 (proj2 (proc_lookup_spec 100 3 st_family st_family_registry_ok)));
    [done|].
  exists 400, zombie_proc. split; [|done]. do 2 right. left.
Defined.

Lemma proc_getid_first_free_witness :
(1 ≤ st_next_pid st_two < PROC_MAX_COUNT ∧ registry_ok st_two ∧
 _proc_getid st_two = Ok (3, set_next_pid 4 st_two)) ∧
((3 = -1 ∧ set_next_pid 4 st_two = st_two) ∨
 (1 ≤ 3 < PROC_MAX_COUNT ∧
  (∀ q, visited (st_next_pid st_two) 3 q → pid_registered st_two q) ∧
  set_next_pid 4 st_two = set_next_pid (next_id 3) st_two)).
Proof.
assert (1 ≤ st_next_pid st_two < PROC_MAX_COUNT) as H1 by (simpl; lia).
assert (_proc_getid st_two = Ok (3, set_next_pid 4 st_two)) as H2 by reflexivity.
split; [split; [exact H1|split; [exact st_two_registry_ok|exact H2]]|].
exact (proc_getid_first_free st_two 3 _ H1 st_two_registry_ok H2).
Defined.

Lemma get_empty_fd_spec_witness :
(st_procs st_shell !! st_curproc st_shell = Some sh_proc ∧
 is_Some (st_ints st_shell !! 900)) ∧
∃ ret k, get_empty_fd 24 900 st_shell = Ok (ret, set_ints (insert 900 k) st_shell) ∧
  ((ret = 0 ∧ ∃ i, k = Z.of_nat i ∧ (i < NFILES)%nat ∧
      slot (p_files sh_proc) i = NULL ∧
      ∀ j, (j < i)%nat → slot (p_files sh_proc) j ≠ NULL) ∨
   (ret = - 24 ∧ k = -1 ∧
      ∀ j, (j < NFILES)%nat → slot (p_files sh_proc) j ≠ NULL)).
Proof.
assert (is_Some (st_ints st_shell !! 900)) as Hs by (exists 0; reflexivity).
split; [split; [reflexivity|exact Hs]|].
exact (get_empty_fd_spec 24 900 st_shell sh_proc eq_refl Hs).
Defined.

Example get_empty_fd_shell :
get_empty_fd 24 900 st_shell = Ok (0, set_ints (insert 900 1) st_shell).
Proof. reflexivity. Qed.

Lemma proc_create_registers_witness :
(1 ≤ st_next_pid st_two < PROC_MAX_COUNT ∧ registry_ok st_two ∧
 proc_create "job" st_two = Ok (400, st_two_created) ∧ 400 ≠ NULL) ∧
∃ rnew rcur,
  st_procs st_two_created !! 400 = Some rnew ∧
  1 ≤ p_pid rnew < PROC_MAX_COUNT ∧ ¬ pid_registered st_two (p_pid rnew) ∧
  p_state rnew = PROC_RUNNING ∧ p_pproc rnew = 200 ∧
  st_proc_list st_two_created = [200; 300; 400] ∧
  st_procs st_two_created !! 200 = Some rcur ∧
  (∃ l, p_children rcur = l ++ [400]).
Proof.
assert (1 ≤ st_next_pid st_two < PROC_MAX_COUNT) as H1 by (simpl; lia).
assert (400 ≠ NULL) as H2 by done.
split; [split; [exact H1|split; [exact st_two_registry_ok|
        split; [exact st_two_create|exact H2]]]|].
destruct (proc_create_registers "job" st_two 400 st_two_created H1
            st_two_registry_ok st_two_create H2)
  as (rnew & rcur & _ & Hr & Hrange & Hfresh & Hst & _ & _ & Hpp & _ & Hl & Hc & Hch & _).
exists rnew, rcur. done.
Defined.

Lemma st_two_full q :
1 ≤ q < @PROC_MAX_COUNT tiny_config → pid_registered st_two q.
Proof.
intros Hq. simpl in Hq. assert (q = 1 ∨ q = 2) as [-> | ->] by lia.
- exists 200. eexists. split; [left|]. split; [vm_compute; reflexivity|reflexivity].
- exists 300. eexists. split; [right; left|].
  split; [vm_compute; reflexivity|reflexivity].
Qed.

Lemma proc_create_fails_clean_witness :
(1 ≤ st_next_pid st_two < @PROC_MAX_COUNT tiny_config ∧ registry_ok st_two ∧
 ∀ q, 1 ≤ q < @PROC_MAX_COUNT tiny_config → pid_registered st_two q) ∧
∃ n, @proc_create tiny_config "x" st_two = Ok (NULL, set_next_pid n st_two) ∧
  n = st_next_pid st_two.
Proof.
assert (1 ≤ st_next_pid st_two < @PROC_MAX_COUNT tiny_config) as H1
  by (simpl; lia).
split; [split; [exact H1|split; [exact st_two_registry_ok|exact st_two_full]]|].
destruct (@proc_create_fails_clean tiny_config "x" st_two H1 st_two_registry_ok
            (or_introl st_two_full)) as (n & Hrun & Hn).
exists n. split; [exact Hrun|exact (Hn st_two_full)].
Defined.

Lemma proc_lookup_after_create_witness :
(1 ≤ st_next_pid st_two < PROC_MAX_COUNT ∧ registry_ok st_two ∧
 proc_create "job" st_two = Ok (400, st_two_created) ∧ 400 ≠ NULL) ∧
∃ rnew, st_procs st_two_created !! 400 = Some rnew ∧
  proc_lookup 100 (p_pid rnew) st_two_created = Ok 400.
Proof.
assert (1 ≤ st_next_pid st_two < PROC_MAX_COUNT) as H1 by (simpl; lia).
assert (400 ≠ NULL) as H2 by done.
split; [split; [exact H1|split; [exact st_two_registry_ok|
        split; [exact st_two_create|exact H2]]]|].
exact (proc_lookup_after_create 100 "job" st_two 400 st_two_created H1
         st_two_registry_ok st_two_create H2).
Defined.

Lemma kernel_ok_invariant_witness :
(kstep (OpCreate "job") st_two st_two_created ∧ kernel_ok st_two) ∧
kernel_ok st_two_created.
Proof.
assert (kstep (OpCreate "job") st_two st_two_created) as Hstep
  by exact (step_create "job" st_two 400 st_two_created st_two_create).
split; [split; [exact Hstep|exact st_two_kernel_ok]|].
exact (kernel_ok_invariant _ _ _ Hstep st_two_kernel_ok).
Defined.








Lemma st_shell_cleanup : proc_cleanup 5 st_shell = Ok st_shell_cleaned.
Proof. vm_compute. reflexivity. Qed.

Lemma st_shell_cleaned_self : st_procs st_shell_cleaned !! 300 = Some sh_dead.
Proof. vm_compute. reflexivity. Qed.

Lemma exit_destroy_releases_once_witness :
(st_procs st_shell !! st_curproc st_shell = Some sh_proc ∧
 p_pml4 sh_proc ≠ NULL ∧
 proc_cleanup 5 st_shell = Ok st_shell_cleaned ∧
 st_procs st_shell_cleaned !! st_curproc st_shell = Some sh_dead ∧
 same_self sh_dead sh_dead) ∧
∃ st2, proc_destroy 300 st_shell_cleaned = Ok st2 ∧
  (f_refcount <$> st_files st_shell !! 700) = Some 2 ∧
  (f_refcount <$> st_files st2 !! 700) = Some 1 ∧
  st_vnodes st_shell !! 800 = Some 3 ∧
  st_vnodes st2 !! 800 = Some 2.
Proof.
assert (p_pml4 sh_proc ≠ NULL) as Hpml4 by done.
split.
{ split; [reflexivity|]. split; [exact Hpml4|]. split; [exact st_shell_cleanup|].
  split; [exact st_shell_cleaned_self|apply same_self_refl]. }
destruct (exit_destroy_releases_once 5 st_shell st_shell_cleaned st_shell_cleaned
            sh_proc sh_dead sh_dead eq_refl Hpml4 st_shell_cleanup
            st_shell_cleaned_self st_shell_cleaned_self (same_self_refl sh_dead)
            eq_refl eq_refl) as (st2 & Hd & Hf & Hv).
exists st2. split; [exact Hd|]. split; [reflexivity|]. split.
- destruct (Hf 700 (mk_file 0 1 2 800)) as (o' & Ho' & Hc); [done|reflexivity|].
  rewrite Ho'. simpl. by rewrite Hc.
- split; [reflexivity|]. by rewrite (Hv 800 3 eq_refl).
Defined.





Example proc_destroy_no_pagetable :
proc_destroy 400
  (set_procs (insert 400 (mk_proc 3 "zombie" [640] [] 200 7 PROC_DEAD NULL NULL
                            [NULL; NULL])) st_family)
= Err AssertFailed.
Proof. vm_compute. reflexivity. Qed.

Lemma boot_first_process_witness :
(st_proc_list st_cold = [] ∧ st_next_pid st_cold = 1 ∧ 1 < PROC_MAX_COUNT ∧
 st_slab st_cold = [200; 300; 400] ∧ 200 ≠ NULL ∧ 200 ≠ 100) ∧
∃ st' rnew ridle,
  proc_create "init" (proc_idleproc_init 100 1000 0 st_cold) = Ok (200, st') ∧
  st_procs st' !! 200 = Some rnew ∧
  p_pid rnew = 1 ∧ p_pproc rnew = 100 ∧ p_state rnew = PROC_RUNNING ∧
  st_procs st' !! 100 = Some ridle ∧
  p_pid ridle = 0 ∧ p_pproc ridle = NULL ∧ p_children ridle = [200] ∧
  p_pml4 ridle = 1000 ∧
  st_proc_list st' = [200] ∧
  st_curproc st' = 100 ∧ st_curthr st' = NULL ∧
  st_files st' = st_files st_cold ∧ st_vnodes st' = st_vnodes st_cold ∧
  (PID_INIT = 1 → st_initproc st' = 200).
Proof.
assert (1 < PROC_MAX_COUNT) as Hmax by (simpl; lia).
assert (200 ≠ NULL) as Ha by done.
assert (200 ≠ 100) as Hai by done.
split; [by repeat (split; [done|])|].
exact (boot_first_process 100 1000 0 "init" st_cold 200 [300; 400]
         eq_refl eq_refl Hmax eq_refl Ha Hai).
Defined.

Example boot_idle_name :
(p_name <$> st_procs (proc_idleproc_init 100 1000 0 st_cold) !! 100) = Some "idle0" ∧
(p_name <$> st_procs (proc_idleproc_init 100 1000 1234 st_cold) !! 100)
= Some "idle123".
Proof. split; vm_compute; reflexivity. Qed.

Lemma st_lowmem_create :
proc_create "job" st_shell_lowmem = Ok (600, st_lowmem_created).
Proof. vm_compute. reflexivity. Qed.

Lemma child_first_fd_witness :
(proc_create "job" st_shell_lowmem = Ok (600, st_lowmem_created) ∧ 600 ≠ NULL ∧
 (0 < NFILES)%nat ∧ is_Some (st_ints st_lowmem_created !! 900)) ∧
(p_files <$> st_procs st_lowmem_created !! 300) = Some [700; NULL] ∧
get_empty_fd 24 900 (set_curthr 660 (set_curproc 600 st_lowmem_created))
= Ok (0, set_ints (insert 900 0) (set_curthr 660 (set_curproc 600 st_lowmem_created))).
Proof.
assert (600 ≠ NULL) as Hp by done.
assert (0 < NFILES)%nat as Hn by (simpl; lia).
assert (is_Some (st_ints st_lowmem_created !! 900)) as Hs
  by (exists 0; vm_compute; reflexivity).
split; [split; [exact st_lowmem_create|split; [exact Hp|split; [exact Hn|exact Hs]]]|].
split; [vm_compute; reflexivity|].
exact (child_first_fd 24 "job" st_shell_lowmem 600 st_lowmem_created 660 900
         st_lowmem_create Hp Hn Hs).
Defined.

End MoreConcrete.
